(** * SIP calculator and investment planner: a shallow embedding

    The JavaScript sources embedded here are the calculator module
    (calculateSIP, calculateSIPValue, calculateSIPProjections,
    calculateRequiredSIP, calculateLumpSum, compareSIPvsLumpSum), the helpers
    of storage.js they call (yearsToMonths, annualToMonthlyRate, round) and
    the allocation functions of planner.js (getRecommendedAllocation,
    optimizePortfolioAllocation).

    Numbers.  A JavaScript number is modelled by [num]: a finite value, one
    of the two infinities, or NaN.  Finite values are exact rationals, so the
    arithmetic of the model is the arithmetic of the formulas with no
    rounding error, no overflow and a single zero (taken as +0).  The special
    values follow IEEE 754 as ECMAScript prescribes: 0/0 is NaN, x/0 is an
    infinity, every comparison with NaN is false, NaN is falsy.

    Math.pow.  Powers with an integer exponent are computed exactly.  A
    positive base raised to a non-integer exponent is in general irrational;
    ECMAScript leaves that value to the implementation, and so does this
    development: it is the section variable [pow_frac]. *)

From Stdlib Require Import QArith Qround Qpower Qabs Qcanon ZArith List Sorted Ascii String
  DecimalString Bool Lia Lqa.
Import ListNotations.

Close Scope Qc_scope.
Open Scope Q_scope.

(** ** JavaScript numbers *)

Inductive num : Type :=
| Fin (q : Q)
| PInf
| NInf
| NaN.

Declare Scope num_scope.
Delimit Scope num_scope with num.
Bind Scope num_scope with num.

Module Num.

Definition is_zero (q : Q) : bool := Qeq_bool q 0.
Definition is_pos (q : Q) : bool := negb (Qle_bool q 0).
Definition is_neg (q : Q) : bool := negb (Qle_bool 0 q).

(** The infinity with the sign of [q]; the single zero counts as +0. *)
Definition inf_of_sign (q : Q) : num := if is_neg q then NInf else PInf.

Definition neg (a : num) : num :=
  match a with
  | Fin x => Fin (- x)
  | PInf => NInf
  | NInf => PInf
  | NaN => NaN
  end.

Definition add (a b : num) : num :=
  match a, b with
  | NaN, _ | _, NaN => NaN
  | Fin x, Fin y => Fin (x + y)
  | PInf, NInf | NInf, PInf => NaN
  | PInf, _ | _, PInf => PInf
  | NInf, _ | _, NInf => NInf
  end.

Definition sub (a b : num) : num := add a (neg b).

Definition mul (a b : num) : num :=
  match a, b with
  | NaN, _ | _, NaN => NaN
  | Fin x, Fin y => Fin (x * y)
  | Fin x, PInf | PInf, Fin x => if is_zero x then NaN else inf_of_sign x
  | Fin x, NInf | NInf, Fin x => if is_zero x then NaN else neg (inf_of_sign x)
  | PInf, PInf | NInf, NInf => PInf
  | PInf, NInf | NInf, PInf => NInf
  end.

Definition div (a b : num) : num :=
  match a, b with
  | NaN, _ | _, NaN => NaN
  | Fin x, Fin y =>
      if is_zero y then (if is_zero x then NaN else inf_of_sign x)
      else Fin (x / y)
  | Fin _, (PInf | NInf) => Fin 0
  | (PInf | NInf), (PInf | NInf) => NaN
  | PInf, Fin y => inf_of_sign y
  | NInf, Fin y => neg (inf_of_sign y)
  end.

(** [a < b], [a <= b], [a > b] of JavaScript: false as soon as one side is
    NaN. *)
Definition ltb (a b : num) : bool :=
  match a, b with
  | NaN, _ | _, NaN => false
  | Fin x, Fin y => negb (Qle_bool y x)
  | NInf, NInf | PInf, _ => false
  | NInf, _ => true
  | Fin _, PInf => true
  | Fin _, NInf => false
  end.

Definition leb (a b : num) : bool :=
  match a, b with
  | NaN, _ | _, NaN => false
  | Fin x, Fin y => Qle_bool x y
  | NInf, _ | _, PInf => true
  | PInf, _ => false
  | Fin _, NInf => false
  end.

Definition gtb (a b : num) : bool := ltb b a.

(** [a !== b] on numbers: NaN differs from everything, itself included. *)
Definition strict_neq (a b : num) : bool :=
  match a, b with
  | NaN, _ | _, NaN => true
  | Fin x, Fin y => negb (Qeq_bool x y)
  | PInf, PInf | NInf, NInf => false
  | _, _ => true
  end.

(** ToBoolean on a number: 0 and NaN are falsy. *)
Definition truthy (a : num) : bool :=
  match a with
  | Fin x => negb (is_zero x)
  | NaN => false
  | PInf | NInf => true
  end.

(** The [%] operator: the remainder has the sign of the dividend and the
    quotient is truncated towards zero. *)
Definition Qtrunc (q : Q) : Z := if is_neg q then Qceiling q else Qfloor q.

Definition rem (a b : num) : num :=
  match a, b with
  | NaN, _ | _, NaN => NaN
  | (PInf | NInf), _ => NaN
  | Fin x, (PInf | NInf) => Fin x
  | Fin x, Fin y =>
      if is_zero y then NaN else Fin (x - y * inject_Z (Qtrunc (x / y)))
  end.

(** Math.round: the nearest integer, a tie going up. *)
Definition Math_round (a : num) : num :=
  match a with
  | Fin x => Fin (inject_Z (Qfloor (x + (1 # 2))))
  | other => other
  end.

Definition Math_max (a b : num) : num :=
  match a, b with
  | NaN, _ | _, NaN => NaN
  | _, _ => if ltb a b then b else a
  end.

Definition Math_min (a b : num) : num :=
  match a, b with
  | NaN, _ | _, NaN => NaN
  | _, _ => if ltb b a then b else a
  end.

(** Equality of the values two numbers stand for. *)
Definition eqv (a b : num) : Prop :=
  match a, b with
  | Fin x, Fin y => x == y
  | PInf, PInf | NInf, NInf | NaN, NaN => True
  | _, _ => False
  end.

(** The integer a rational is, when it is one. *)
Definition as_integer (q : Q) : option Z :=
  let r := Qred q in
  if Pos.eqb (Qden r) 1 then Some (Qnum r) else None.

End Num.

Infix "+" := Num.add : num_scope.
Infix "-" := Num.sub : num_scope.
Infix "*" := Num.mul : num_scope.
Infix "/" := Num.div : num_scope.
Infix "<?" := Num.ltb : num_scope.
Infix "<=?" := Num.leb : num_scope.
Infix ">?" := Num.gtb : num_scope.
Infix "%%" := Num.rem (at level 40, left associativity) : num_scope.
Infix "!==" := Num.strict_neq (at level 70, no associativity) : num_scope.
Infix "=~=" := Num.eqv (at level 70, no associativity) : num_scope.

Coercion Fin : Q >-> num.

(** A call either returns or throws [new Error(msg)]. *)
Inductive completion (A : Type) : Type :=
| Return (a : A)
| Throw (msg : string).
Arguments Return {A} a.
Arguments Throw {A} msg.

(** ** The calculator *)

Section Calculator.

(** Math.pow at a positive base and a non-integer exponent. *)
Variable pow_frac : Q -> Q -> Q.

Local Open Scope num_scope.

(** Math.pow, by the cases of ECMAScript's Number::exponentiate. *)
Definition Math_pow (base exponent : num) : num :=
  match exponent with
  | NaN => NaN
  | Fin e =>
      if Num.is_zero e then Fin 1
      else match base with
           | NaN => NaN
           | PInf => if Num.is_pos e then PInf else Fin 0
           | NInf =>
               let odd := match Num.as_integer e with
                          | Some z => Z.odd z
                          | None => false
                          end in
               if Num.is_pos e then (if odd then NInf else PInf) else Fin 0
           | Fin b =>
               if Num.is_zero b then (if Num.is_pos e then Fin 0 else PInf)
               else match Num.as_integer e with
                    | Some z => Fin (b ^ z)
                    | None => if Num.is_neg b then NaN else Fin (pow_frac b e)
                    end
           end
  | PInf =>
      match base with
      | NaN => NaN
      | PInf | NInf => PInf
      | Fin b =>
          if Qeq_bool (Qabs b) 1 then NaN
          else if Qle_bool (Qabs b) 1 then Fin 0 else PInf
      end
  | NInf =>
      match base with
      | NaN => NaN
      | PInf | NInf => Fin 0
      | Fin b =>
          if Qeq_bool (Qabs b) 1 then NaN
          else if Qle_bool (Qabs b) 1 then PInf else Fin 0
      end
  end.

(** storage.js *)

Definition yearsToMonths (years : num) : num := years * 12.

Definition annualToMonthlyRate (annualRate : num) : num :=
  annualRate / 100 / 12.

Definition round (value decimals : num) : num :=
  Num.Math_round (value * Math_pow 10 decimals) / Math_pow 10 decimals.

(** The calculator module *)

Record SIPResult : Type := {
  monthlyAmount : num;
  years : num;
  months : num;
  annualReturns : num;
  monthlyRate : num;
  totalInvested : num;
  maturityValue : num;
  returns : num;
  returnPercentage : num
}.

Definition calculateSIP (monthlyAmount years annualReturns : num)
  : completion SIPResult :=
  if negb (Num.truthy monthlyAmount) || (monthlyAmount <? 0) then
    Throw "Monthly amount must be a positive number"
  else if negb (Num.truthy years) || (years <? 0) then
    Throw "Years must be a positive number"
  else if negb (Num.truthy annualReturns) || (annualReturns <? 0) then
    Throw "Annual returns must be a positive number"
  else
    let months := yearsToMonths years in
    let monthlyRate := annualToMonthlyRate annualReturns in
    let totalInvested := monthlyAmount * months in
    let futureValue :=
      if monthlyRate >? 0 then
        let numerator := Math_pow (1 + monthlyRate) months - 1 in
        monthlyAmount * (numerator / monthlyRate) * (1 + monthlyRate)
      else totalInvested in
    let returns := futureValue - totalInvested in
    let returnPercentage := (returns / totalInvested) * 100 in
    Return {| monthlyAmount := round monthlyAmount 2;
              years := years;
              months := months;
              annualReturns := round annualReturns 2;
              monthlyRate := round monthlyRate 6;
              totalInvested := round totalInvested 2;
              maturityValue := round futureValue 2;
              returns := round returns 2;
              returnPercentage := round returnPercentage 2 |}.

Definition calculateSIPValue (monthlyAmount months monthlyRate : num) : num :=
  if monthlyRate >? 0 then
    let numerator := Math_pow (1 + monthlyRate) months - 1 in
    monthlyAmount * (numerator / monthlyRate) * (1 + monthlyRate)
  else monthlyAmount * months.


Record LumpSumResult : Type := {
  ls_principal : num;
  ls_years : num;
  ls_annualReturns : num;
  ls_maturityValue : num;
  ls_returns : num;
  ls_returnPercentage : num
}.

Definition calculateLumpSum (principal years annualReturns : num)
  : LumpSumResult :=
  let annualRate := annualReturns / 100 in
  let futureValue := principal * Math_pow (1 + annualRate) years in
  let returns := futureValue - principal in
  let returnPercentage := (returns / principal) * 100 in
  {| ls_principal := round principal 2;
     ls_years := years;
     ls_annualReturns := round annualReturns 2;
     ls_maturityValue := round futureValue 2;
     ls_returns := round returns 2;
     ls_returnPercentage := round returnPercentage 2 |}.

Record Comparison : Type := {
  sipMaturity : num;
  lumpSumMaturity : num;
  difference : num;
  winner : string
}.

Record SIPvsLumpSum : Type := {
  sip : SIPResult;
  lumpSum : LumpSumResult;
  sipTotalInvested : num;
  comparison : Comparison
}.

Definition compareSIPvsLumpSum (monthlySIP lumpSumAmount years annualReturns : num)
  : completion SIPvsLumpSum :=
  match calculateSIP monthlySIP years annualReturns with
  | Throw msg => Throw msg
  | Return sipResult =>
      let lumpSumResult := calculateLumpSum lumpSumAmount years annualReturns in
      let totalSIPInvested := monthlySIP * yearsToMonths years in
      Return {| sip := sipResult;
                lumpSum := lumpSumResult;
                sipTotalInvested := totalSIPInvested;
                comparison :=
                  {| sipMaturity := maturityValue sipResult;
                     lumpSumMaturity := ls_maturityValue lumpSumResult;
                     difference :=
                       round (maturityValue sipResult
                              - ls_maturityValue lumpSumResult) 2;
                     winner :=
                       if maturityValue sipResult >? ls_maturityValue lumpSumResult
                       then "SIP" else "Lump Sum" |} |}
  end.

(** calculateSIPProjections: the four parallel arrays it returns.  A label is
    kept as the template it was built from: [YearFixed1 y] stands for
    `Year ${y.toFixed(1)}` and [YearOf y] for `Year ${y}`. *)

Inductive Label : Type :=
| YearFixed1 (y : num)
| YearOf (y : num).

Record Projections : Type := {
  p_labels : list Label;
  p_invested : list num;
  p_maturity : list num;
  p_returns : list num
}.

(** One round of pushes onto the four arrays. *)
Definition push_sample (acc : Projections) (label : Label)
  (totalInvested currentValue returns : num) : Projections :=
  {| p_labels := p_labels acc ++ [label];
     p_invested := p_invested acc ++ [round totalInvested 2];
     p_maturity := p_maturity acc ++ [round currentValue 2];
     p_returns := p_returns acc ++ [round returns 2] |}.

(** The loop [for (let month = interval; month <= totalMonths; month += interval)],
    entered at [month].  It runs for ever when the interval is not positive,
    so the model counts its iterations down from [fuel] and answers [None]
    when they are used up. *)
Fixpoint projectionLoop (fuel : nat)
  (monthlyAmount monthlyRate totalMonths interval month : num)
  (acc : Projections) : option Projections :=
  match fuel with
  | O => None
  | S fuel' =>
      if month <=? totalMonths then
        let year := YearFixed1 (month / 12) in
        let totalInvested := monthlyAmount * month in
        let currentValue := calculateSIPValue monthlyAmount month monthlyRate in
        let returns := currentValue - totalInvested in
        projectionLoop fuel' monthlyAmount monthlyRate totalMonths interval
          (month + interval)
          (push_sample acc year totalInvested currentValue returns)
      else Some acc
  end.

Definition calculateSIPProjections (fuel : nat)
  (monthlyAmount years annualReturns : num) (interval : option num)
  : option Projections :=
  let interval := match interval with Some i => i | None => Fin 6 end in
  let monthlyRate := annualToMonthlyRate annualReturns in
  let totalMonths := yearsToMonths years in
  match projectionLoop fuel monthlyAmount monthlyRate totalMonths interval
          interval
          {| p_labels := []; p_invested := []; p_maturity := []; p_returns := [] |}
  with
  | None => None
  | Some acc =>
      if (totalMonths %% interval) !== 0 then
        let totalInvested := monthlyAmount * totalMonths in
        let currentValue :=
          calculateSIPValue monthlyAmount totalMonths monthlyRate in
        let returns := currentValue - totalInvested in
        Some (push_sample acc (YearOf years) totalInvested currentValue returns)
      else Some acc
  end.

(** planner.js.  An allocation object is the list of its properties in
    insertion order, which is the order of Object.keys and Object.values.
    Reading a property the object lacks gives undefined, which arithmetic
    turns into NaN.  Property names inherited from Object.prototype are not
    modelled. *)

Definition Allocation : Type := list (string * num).

Fixpoint get_prop (o : Allocation) (key : string) : num :=
  match o with
  | [] => NaN
  | (k, v) :: rest => if String.eqb k key then v else get_prop rest key
  end.


Definition Object_values (o : Allocation) : list num := map snd o.









(** ** Further functions of storage.js and of the calculator module *)

(** Math.abs. *)
Definition Math_abs (a : num) : num :=
  match a with
  | Fin x => Fin (Qabs x)
  | NInf => PInf
  | other => other
  end.

(** [a >= b] of JavaScript. *)
Definition geb (a b : num) : bool := b <=? a.

(** [a === b] on numbers. *)
Definition strict_eq (a b : num) : bool := negb (a !== b).

(** A property that may be missing: [None] is undefined.  ToBoolean of it,
    and the number it is once a test has found it truthy (undefined would
    turn into NaN). *)
Definition truthy_opt (v : option num) : bool :=
  match v with
  | Some a => Num.truthy a
  | None => false
  end.

Definition num_of (v : option num) : num :=
  match v with
  | Some a => a
  | None => NaN
  end.

(** [v || d], for a number or undefined [v] (undefined read as NaN, falsy
    like it). *)
Definition or_default (v d : num) : num := if Num.truthy v then v else d.

Definition clamp (value min max : num) : num :=
  Num.Math_min (Num.Math_max value min) max.



(** calculateYearlyGrowth: one row of the array it returns. *)
Record YearRow : Type := {
  y_year : num;
  y_invested : num;
  y_totalInvested : num;
  y_currentValue : num;
  y_returns : num;
  y_returnPercentage : num
}.

(** The loop [for (let year = 1; year <= years; year++)], entered at [year];
    it does not end when [years] is Infinity, hence the fuel. *)
Fixpoint yearlyLoop (fuel : nat) (monthlyAmount years monthlyRate year : num)
  (yearlyData : list YearRow) : option (list YearRow) :=
  match fuel with
  | O => None
  | S fuel' =>
      if year <=? years then
        let months := year * 12 in
        let invested := monthlyAmount * 12 in
        let totalInvested := monthlyAmount * months in
        let currentValue := calculateSIPValue monthlyAmount months monthlyRate in
        let returns := currentValue - totalInvested in
        let returnPercentage :=
          if totalInvested >? 0 then (returns / totalInvested) * 100 else 0 in
        yearlyLoop fuel' monthlyAmount years monthlyRate (year + 1)
          (yearlyData ++
           [{| y_year := year;
               y_invested := round invested 2;
               y_totalInvested := round totalInvested 2;
               y_currentValue := round currentValue 2;
               y_returns := round returns 2;
               y_returnPercentage := round returnPercentage 2 |}])
      else Some yearlyData
  end.

Definition calculateYearlyGrowth (fuel : nat)
  (monthlyAmount years annualReturns : num) : option (list YearRow) :=
  let monthlyRate := annualToMonthlyRate annualReturns in
  yearlyLoop fuel monthlyAmount years monthlyRate 1 [].

(** ** planner.js: portfolios

    A portfolio is the object the planner builds: [assets] maps an asset
    type to an object with the optional numbers amount, returns and
    allocation, kept in insertion order (the order of Object.keys). *)

Record Asset : Type := {
  a_amount : option num;
  a_returns : option num;
  a_allocation : option num
}.

Record Portfolio : Type := {
  assets : option (list (string * Asset));
  pf_timeHorizon : option num;
  targetAmount : option num
}.

Definition calculatePortfolioValue (portfolio : Portfolio) : num :=
  let totalInvested :=
    match assets portfolio with
    | Some entries =>
        fold_left
          (fun totalInvested (entry : string * Asset) =>
             let asset := snd entry in
             if truthy_opt (a_amount asset)
             then totalInvested + num_of (a_amount asset)
             else totalInvested)
          entries (Fin 0)
    | None => Fin 0
    end in
  round totalInvested 2.

(** The forEach of calculatePortfolioReturns over the asset types, entered
    with [currentValue] accumulated so far; a throw of calculateSIP leaves
    the loop and the function. *)
Fixpoint portfolioReturnsLoop (years : num) (entries : list (string * Asset))
  (currentValue : num) : completion num :=
  match entries with
  | [] => Return currentValue
  | (assetType, asset) :: rest =>
      if truthy_opt (a_amount asset) && truthy_opt (a_returns asset) then
        let amount := num_of (a_amount asset) in
        let returns := num_of (a_returns asset) in
        let annualRate := returns / 100 in
        if String.eqb assetType "sip" && (amount >? 0) then
          match calculateSIP amount years (returns * 100) with
          | Throw msg => Throw msg
          | Return sipResult =>
              portfolioReturnsLoop years rest
                (currentValue + maturityValue sipResult)
          end
        else
          let futureValue := amount * Math_pow (1 + annualRate) years in
          portfolioReturnsLoop years rest (currentValue + futureValue)
      else portfolioReturnsLoop years rest currentValue
  end.

Definition calculatePortfolioReturns (portfolio : Portfolio) : completion num :=
  match assets portfolio with
  | None => Return (Fin 0)
  | Some entries =>
      if negb (truthy_opt (pf_timeHorizon portfolio)) then Return (Fin 0)
      else
        let years := num_of (pf_timeHorizon portfolio) in
        match portfolioReturnsLoop years entries (Fin 0) with
        | Throw msg => Throw msg
        | Return currentValue => Return (round currentValue 2)
        end
  end.

Definition calculateWeightedAverageReturn (portfolio : Portfolio) : num :=
  match assets portfolio with
  | None => Fin 0
  | Some entries =>
      let sums :=
        fold_left
          (fun (sums : num * num) (entry : string * Asset) =>
             let asset := snd entry in
             let totalAllocation := fst sums in
             let weightedReturn := snd sums in
             if truthy_opt (a_allocation asset) && truthy_opt (a_returns asset)
             then (totalAllocation + num_of (a_allocation asset),
                   weightedReturn
                   + (num_of (a_allocation asset) / 100) * num_of (a_returns asset))
             else sums)
          entries (Fin 0, Fin 0) in
      if strict_eq (fst sums) 0 then Fin 0 else round (snd sums) 2
  end.

Definition riskScores : Allocation :=
  [("sip"%string, Fin 5); ("stocks"%string, Fin 8); ("bonds"%string, Fin 3);
   ("realestate"%string, Fin 4); ("gold"%string, Fin 4);
   ("emergency"%string, Fin 1)].

Definition calculatePortfolioRisk (portfolio : Portfolio) : num :=
  match assets portfolio with
  | None => Fin 5
  | Some entries =>
      let sums :=
        fold_left
          (fun (sums : num * num) (entry : string * Asset) =>
             let assetType := fst entry in
             let asset := snd entry in
             let weightedRisk := fst sums in
             let totalAllocation := snd sums in
             if truthy_opt (a_allocation asset) then
               let riskScore := or_default (get_prop riskScores assetType) 5 in
               (weightedRisk + (num_of (a_allocation asset) / 100) * riskScore,
                totalAllocation + num_of (a_allocation asset))
             else sums)
          entries (Fin 0, Fin 0) in
      if strict_eq (snd sums) 0 then Fin 5 else round (fst sums) 1
  end.

(** The message of a failed validation: 'Portfolio has no assets', or
    `Total allocation is ${totalAllocation.toFixed(2)}%. It should be 100%.`
    kept with the total it is built from. *)
Inductive AllocationMessage : Type :=
| NoAssets
| TotalIs (totalAllocation : num).

Record AllocationCheck : Type := {
  valid : bool;
  message : option AllocationMessage;
  v_totalAllocation : option num
}.

Definition validatePortfolioAllocation (portfolio : Portfolio) : AllocationCheck :=
  match assets portfolio with
  | None => {| valid := false; message := Some NoAssets; v_totalAllocation := None |}
  | Some entries =>
      let totalAllocation :=
        fold_left
          (fun totalAllocation (entry : string * Asset) =>
             let asset := snd entry in
             if truthy_opt (a_allocation asset)
             then totalAllocation + num_of (a_allocation asset)
             else totalAllocation)
          entries (Fin 0) in
      if Math_abs (totalAllocation - 100) >? (1 # 100)%Q then
        {| valid := false;
           message := Some (TotalIs totalAllocation);
           v_totalAllocation := Some (round totalAllocation 2) |}
      else {| valid := true; message := None; v_totalAllocation := Some (Fin 100) |}
  end.

Record GoalProgress : Type := {
  g_currentValue : num;
  g_targetAmount : num;
  g_progress : num;
  g_remaining : num;
  g_isAchieved : bool
}.

(** calculateGoalProgress: [None] is the null it returns without a target. *)
Definition calculateGoalProgress (portfolio : Portfolio)
  : completion (option GoalProgress) :=
  if negb (truthy_opt (targetAmount portfolio))
     || (num_of (targetAmount portfolio) <=? 0)
  then Return None
  else
    let target := num_of (targetAmount portfolio) in
    match calculatePortfolioReturns portfolio with
    | Throw msg => Throw msg
    | Return currentValue =>
        let progress := (currentValue / target) * 100 in
        let remaining := Num.Math_max 0 (target - currentValue) in
        let isAchieved := geb currentValue target in
        Return (Some {| g_currentValue := round currentValue 2;
                        g_targetAmount := round target 2;
                        g_progress := round progress 2;
                        g_remaining := round remaining 2;
                        g_isAchieved := isAchieved |})
    end.

Record Metrics : Type := {
  m_totalInvested : num;
  m_currentValue : num;
  m_returns : num;
  m_roi : num;
  m_weightedAverageReturn : num;
  m_riskScore : num;
  m_goalProgress : option GoalProgress
}.

Definition calculatePortfolioMetrics (portfolio : Portfolio) : completion Metrics :=
  let totalInvested := calculatePortfolioValue portfolio in
  match calculatePortfolioReturns portfolio with
  | Throw msg => Throw msg
  | Return currentValue =>
      let returns := currentValue - totalInvested in
      let roi :=
        if totalInvested >? 0 then (returns / totalInvested) * 100 else 0 in
      let weightedReturn := calculateWeightedAverageReturn portfolio in
      let riskScore := calculatePortfolioRisk portfolio in
      match calculateGoalProgress portfolio with
      | Throw msg => Throw msg
      | Return goalProgress =>
          Return {| m_totalInvested := round totalInvested 2;
                    m_currentValue := round currentValue 2;
                    m_returns := round returns 2;
                    m_roi := round roi 2;
                    m_weightedAverageReturn := weightedReturn;
                    m_riskScore := riskScore;
                    m_goalProgress := goalProgress |}
      end
  end.

(** ** analytics.js: calculateAggregateStats

    The function reads, of the analytics object, the portfolios with their
    metrics and names and the SIPs with their results and names. *)

Record PortfolioEntry : Type := {
  pe_name : option string;
  pe_metrics : Metrics
}.

Record SipEntry : Type := {
  se_name : option string;
  se_result : SIPResult
}.

Record Analytics : Type := {
  an_portfolios : list PortfolioEntry;
  an_sips : list SipEntry
}.

(** An element of allInvestments: [{...p.metrics, name, type: 'portfolio'}]
    or [{roi, name, type: 'sip'}]. *)
Inductive Investment : Type :=
| PortfolioInvestment (metrics : Metrics) (name : option string)
| SipInvestment (roi : num) (name : option string).

Definition inv_roi (inv : Investment) : num :=
  match inv with
  | PortfolioInvestment metrics _ => m_roi metrics
  | SipInvestment roi _ => roi
  end.

Record RiskDistribution : Type := {
  low : nat;
  medium : nat;
  high : nat
}.

Record AggregateStats : Type := {
  totalInvestments : nat;
  bestPerformer : option Investment;
  worstPerformer : option Investment;
  averageReturns : num;
  riskDistribution : RiskDistribution
}.

Definition calculateAggregateStats (analytics : Analytics) : AggregateStats :=
  let allInvestments :=
    map (fun p => PortfolioInvestment (pe_metrics p) (pe_name p))
      (an_portfolios analytics)
    ++ map (fun s => SipInvestment (returnPercentage (se_result s)) (se_name s))
         (an_sips analytics) in
  let totalInvestments :=
    (List.length (an_portfolios analytics) + List.length (an_sips analytics))%nat in
  match allInvestments with
  | [] =>
      {| totalInvestments := totalInvestments;
         bestPerformer := None;
         worstPerformer := None;
         averageReturns := Fin 0;
         riskDistribution := {| low := 0; medium := 0; high := 0 |} |}
  | first :: rest =>
      {| totalInvestments := totalInvestments;
         bestPerformer :=
           Some (fold_left
                   (fun best current =>
                      if inv_roi current >? inv_roi best then current else best)
                   rest first);
         worstPerformer :=
           Some (fold_left
                   (fun worst current =>
                      if inv_roi current <? inv_roi worst then current else worst)
                   rest first);
         averageReturns :=
           fold_left (fun sum inv => sum + inv_roi inv) allInvestments (Fin 0)
           / Fin (inject_Z (Z.of_nat (List.length allInvestments)));
         riskDistribution :=
           fold_left
             (fun dist inv =>
                if inv_roi inv <? 8 then
                  {| low := S (low dist); medium := medium dist; high := high dist |}
                else if inv_roi inv <? 15 then
                  {| low := low dist; medium := S (medium dist); high := high dist |}
                else
                  {| low := low dist; medium := medium dist; high := S (high dist) |})
             allInvestments {| low := 0; medium := 0; high := 0 |} |}
  end.

(** ** ai-engine.js: the risk questionnaire *)

Record Answers : Type := {
  ans_timeHorizon : option string;
  ans_riskTolerance : option string;
  ans_investmentGoal : option string;
  ans_lossTolerance : option string;
  ans_knowledgeLevel : option string;
  ans_experience : option string;
  ans_incomeStability : option string
}.

(** [table[answer] || fallback]; a missing answer is looked up as
    "undefined" and finds nothing. *)
Definition answer_score (table : Allocation) (answer : option string)
  (fallback : num) : num :=
  match answer with
  | Some key => or_default (get_prop table key) fallback
  | None => fallback
  end.

Record RiskProfile : Type := {
  rp_riskScore : num;
  rp_riskLevel : string;
  rp_answers : Answers;
  rp_assessedAt : string
}.

(** assessRiskProfile; [now] is what new Date().toISOString() returns. *)
Definition assessRiskProfile (answers : Answers) (now : string) : RiskProfile :=
  let riskScore := Fin 0 in
  let weights : Allocation :=
    [("timeHorizon"%string, Fin 2); ("riskTolerance"%string, Fin 3);
     ("investmentGoal"%string, Fin 2); ("lossTolerance"%string, Fin 3);
     ("knowledgeLevel"%string, Fin 1); ("experience"%string, Fin 1);
     ("incomeStability"%string, Fin 1)] in
  let timeHorizonScores : Allocation :=
    [("short"%string, Fin 1); ("medium"%string, Fin 3); ("long"%string, Fin 5);
     ("very-long"%string, Fin 7)] in
  let riskScore :=
    riskScore + answer_score timeHorizonScores (ans_timeHorizon answers) 3
                * get_prop weights "timeHorizon" in
  let riskToleranceScores : Allocation :=
    [("panic"%string, Fin 1); ("concern"%string, Fin 3); ("hold"%string, Fin 5);
     ("buy"%string, Fin 7)] in
  let riskScore :=
    riskScore + answer_score riskToleranceScores (ans_riskTolerance answers) 3
                * get_prop weights "riskTolerance" in
  let goalScores : Allocation :=
    [("capital-preservation"%string, Fin 1); ("balanced-growth"%string, Fin 4);
     ("aggressive-growth"%string, Fin 6); ("max-returns"%string, Fin 8)] in
  let riskScore :=
    riskScore + answer_score goalScores (ans_investmentGoal answers) 4
                * get_prop weights "investmentGoal" in
  let lossScores : Allocation :=
    [("low"%string, Fin 1); ("moderate"%string, Fin 4); ("high"%string, Fin 6);
     ("very-high"%string, Fin 8)] in
  let riskScore :=
    riskScore + answer_score lossScores (ans_lossTolerance answers) 4
                * get_prop weights "lossTolerance" in
  let knowledgeScores : Allocation :=
    [("beginner"%string, Fin 2); ("intermediate"%string, Fin 4);
     ("advanced"%string, Fin 6); ("expert"%string, Fin 7)] in
  let riskScore :=
    riskScore + answer_score knowledgeScores (ans_knowledgeLevel answers) 4
                * get_prop weights "knowledgeLevel" in
  let experienceScores : Allocation :=
    [("none"%string, Fin 2); ("limited"%string, Fin 4); ("moderate"%string, Fin 5);
     ("extensive"%string, Fin 6)] in
  let riskScore :=
    riskScore + answer_score experienceScores (ans_experience answers) 4
                * get_prop weights "experience" in
  let stabilityScores : Allocation :=
    [("unstable"%string, Fin 3); ("stable"%string, Fin 5);
     ("very-stable"%string, Fin 6)] in
  let riskScore :=
    riskScore + answer_score stabilityScores (ans_incomeStability answers) 5
                * get_prop weights "incomeStability" in
  let maxPossibleScore :=
    fold_left (fun sum w => sum + w * 8) (Object_values weights) (Fin 0) in
  let normalizedScore := (riskScore / maxPossibleScore) * 100 in
  let riskLevel :=
    if normalizedScore <? 35 then "Conservative"%string
    else if normalizedScore >? 65 then "Aggressive"%string
    else "Moderate"%string in
  {| rp_riskScore := round normalizedScore 1;
     rp_riskLevel := riskLevel;
     rp_answers := answers;
     rp_assessedAt := now |}.

(** ** calculateMultipleSIPs

    A scenario names its fields in one of two ways (amount or
    monthlyAmount, period or years, returns or expectedReturns).  The array
    holds objects: each element comes with the reference that tells one
    object from another, which is what indexOf compares.  A field that is
    missing reaches calculateSIP as undefined; calculateSIP tests every
    argument with [!x] before any other use, where undefined behaves as NaN
    does, so it is passed on as NaN. *)

Record Scenario : Type := {
  sc_name : option string;
  sc_amount : option num;
  sc_monthlyAmount : option num;
  sc_period : option num;
  sc_years : option num;
  sc_returns : option num;
  sc_expectedReturns : option num
}.

(** [a || b] on two properties that may be missing. *)
Definition or_opt (a b : option num) : option num :=
  if truthy_opt a then a else b.

(** Array.prototype.indexOf, searching from the position [from]: the first
    position holding the object of reference [ref], -1 when there is none. *)
Fixpoint indexOf (scenarios : list (nat * Scenario)) (ref : nat) (from : Z) : Z :=
  match scenarios with
  | [] => (-1)%Z
  | (r, _) :: rest =>
      if Nat.eqb r ref then from else indexOf rest ref (from + 1)%Z
  end.

Record NamedResult : Type := {
  nr_name : string;
  nr_result : SIPResult
}.

(** The map of calculateMultipleSIPs over the elements [rest] of the array
    [scenarios]; a throw of calculateSIP leaves the map and the function. *)
Fixpoint multipleSIPsFrom (scenarios rest : list (nat * Scenario))
  : completion (list NamedResult) :=
  match rest with
  | [] => Return []
  | (ref, scenario) :: rest' =>
      match calculateSIP
              (num_of (or_opt (sc_amount scenario) (sc_monthlyAmount scenario)))
              (num_of (or_opt (sc_period scenario) (sc_years scenario)))
              (num_of (or_opt (sc_returns scenario) (sc_expectedReturns scenario)))
      with
      | Throw msg => Throw msg
      | Return result =>
          let name :=
            match sc_name scenario with
            | Some (String c s) => String c s
            | Some EmptyString | None =>
                (("SIP " ++ NilZero.string_of_int (Z.to_int (indexOf scenarios ref 0)))
                 ++ "1")%string
            end in
          match multipleSIPsFrom scenarios rest' with
          | Throw msg => Throw msg
          | Return results =>
              Return ({| nr_name := name; nr_result := result |} :: results)
          end
      end
  end.

Definition calculateMultipleSIPs (scenarios : list (nat * Scenario))
  : completion (list NamedResult) :=
  multipleSIPsFrom scenarios scenarios.

(** ** analytics.js: processAnalyticsData

    A portfolio of the input array is a portfolio object with its name; a
    SIP scenario is read through monthlyAmount, period and expectedReturns.
    Of [{...portfolio, metrics}] and [{...scenario, result}] the entries keep
    what the rest of analytics.js reads: the name and the metrics or the
    result.  [pa_summary] is [None] for the empty object the summary is
    until it is computed. *)

Record Summary : Type := {
  s_totalInvested : num;
  s_totalValue : num;
  s_totalReturns : num;
  averageROI : num;
  portfolioCount : nat;
  sipCount : nat
}.

Record ProcessedAnalytics : Type := {
  pa_totalInvested : num;
  pa_totalValue : num;
  pa_totalReturns : num;
  pa_portfolios : list PortfolioEntry;
  pa_sips : list SipEntry;
  pa_summary : option Summary
}.

(** [portfolios.forEach], a throw of calculatePortfolioMetrics leaving it. *)
Fixpoint processPortfolios (portfolios : list (option string * Portfolio))
  (analytics : ProcessedAnalytics) : completion ProcessedAnalytics :=
  match portfolios with
  | [] => Return analytics
  | (name, portfolio) :: rest =>
      match calculatePortfolioMetrics portfolio with
      | Throw msg => Throw msg
      | Return metrics =>
          processPortfolios rest
            {| pa_totalInvested := pa_totalInvested analytics + m_totalInvested metrics;
               pa_totalValue := pa_totalValue analytics + m_currentValue metrics;
               pa_totalReturns := pa_totalReturns analytics + m_returns metrics;
               pa_portfolios :=
                 pa_portfolios analytics
                 ++ [{| pe_name := name; pe_metrics := metrics |}];
               pa_sips := pa_sips analytics;
               pa_summary := pa_summary analytics |}
      end
  end.

(** [sipScenarios.forEach], a throw of calculateSIP leaving it. *)
Fixpoint processSips (sipScenarios : list Scenario)
  (analytics : ProcessedAnalytics) : completion ProcessedAnalytics :=
  match sipScenarios with
  | [] => Return analytics
  | scenario :: rest =>
      match calculateSIP (num_of (sc_monthlyAmount scenario))
              (num_of (sc_period scenario))
              (num_of (sc_expectedReturns scenario))
      with
      | Throw msg => Throw msg
      | Return result =>
          processSips rest
            {| pa_totalInvested := pa_totalInvested analytics + totalInvested result;
               pa_totalValue := pa_totalValue analytics + maturityValue result;
               pa_totalReturns := pa_totalReturns analytics + returns result;
               pa_portfolios := pa_portfolios analytics;
               pa_sips :=
                 pa_sips analytics
                 ++ [{| se_name := sc_name scenario; se_result := result |}];
               pa_summary := pa_summary analytics |}
      end
  end.

Definition processAnalyticsData (portfolios : list (option string * Portfolio))
  (sipScenarios : list Scenario) : completion ProcessedAnalytics :=
  let analytics :=
    {| pa_totalInvested := Fin 0; pa_totalValue := Fin 0; pa_totalReturns := Fin 0;
       pa_portfolios := []; pa_sips := []; pa_summary := None |} in
  match processPortfolios portfolios analytics with
  | Throw msg => Throw msg
  | Return analytics =>
      match processSips sipScenarios analytics with
      | Throw msg => Throw msg
      | Return analytics =>
          Return
            {| pa_totalInvested := pa_totalInvested analytics;
               pa_totalValue := pa_totalValue analytics;
               pa_totalReturns := pa_totalReturns analytics;
               pa_portfolios := pa_portfolios analytics;
               pa_sips := pa_sips analytics;
               pa_summary :=
                 Some {| s_totalInvested := round (pa_totalInvested analytics) 2;
                         s_totalValue := round (pa_totalValue analytics) 2;
                         s_totalReturns := round (pa_totalReturns analytics) 2;
                         averageROI :=
                           if pa_totalInvested analytics >? 0
                           then round ((pa_totalReturns analytics
                                        / pa_totalInvested analytics) * 100) 2
                           else 0;
                         portfolioCount := List.length portfolios;
                         sipCount := List.length sipScenarios |} |}
      end
  end.

(** What calculateAggregateStats reads of the object processAnalyticsData
    returns. *)
Definition analytics_of (analytics : ProcessedAnalytics) : Analytics :=
  {| an_portfolios := pa_portfolios analytics; an_sips := pa_sips analytics |}.


(** ** Notions the statements below are written with *)


(** The closed form as calculateSIP and calculateSIPValue write it:
    P x (((1 + i)^n - 1) / i) x (1 + i). *)
Definition future_value (P i : Q) (n : Z) : Q :=
  (P * (((1 + i) ^ n - 1) / i) * (1 + i))%Q.


(** [a > 0] as JavaScript decides it. *)
Definition positive_num (a : num) : Prop := (a >? 0) = true.

(** The months the loop of calculateSIPProjections visits in [k] rounds
    entered at [m]: m, m + i, m + i + i, ... *)
Fixpoint loop_months (i m : Q) (k : nat) : list Q :=
  match k with
  | O => []
  | S k' => m :: loop_months i (m + i)%Q k'
  end.


(** The four arrays with one sample for each month of [months], each
    computed on its own from the month, followed by the samples of [tail],
    which carry the label of the final point. *)
Definition sample_arrays (P y rate : num) (months tail : list Q) : Projections :=
  {| p_labels :=
       map (fun m : Q => YearFixed1 (Fin m / 12)) months
       ++ map (fun _ : Q => YearOf y) tail;
     p_invested := map (fun m : Q => round (P * Fin m) 2) (months ++ tail);
     p_maturity :=
       map (fun m : Q => round (calculateSIPValue P (Fin m) rate) 2)
         (months ++ tail);
     p_returns :=
       map (fun m : Q =>
              round (calculateSIPValue P (Fin m) rate - P * Fin m) 2)
         (months ++ tail) |}.



(** The row calculateYearlyGrowth computes for the year [yr]. *)
Definition year_row (P rate : num) (yr : Q) : YearRow :=
  let year := Fin yr in
  let months := year * 12 in
  let totalInvested := P * months in
  let currentValue := calculateSIPValue P months rate in
  let returns := currentValue - totalInvested in
  {| y_year := year;
     y_invested := round (P * 12) 2;
     y_totalInvested := round totalInvested 2;
     y_currentValue := round currentValue 2;
     y_returns := round returns 2;
     y_returnPercentage :=
       round (if totalInvested >? 0 then (returns / totalInvested) * 100 else 0) 2 |}.


(** An allocation share that is missing or a finite number not below zero. *)
Definition share_ok (asset : Asset) : Prop :=
  a_allocation asset = None \/
  exists q, a_allocation asset = Some (Fin q) /\ (0 <= q)%Q.





(** What calculateSIP answers on the fields of a scenario. *)
Definition scenario_outcome (scenario : Scenario) : completion SIPResult :=
  calculateSIP
    (num_of (or_opt (sc_amount scenario) (sc_monthlyAmount scenario)))
    (num_of (or_opt (sc_period scenario) (sc_years scenario)))
    (num_of (or_opt (sc_returns scenario) (sc_expectedReturns scenario))).

(** A scenario calculateSIP accepts. *)
Definition scenario_valid (scenario : Scenario) : Prop :=
  exists res, scenario_outcome scenario = Return res.

(** The property names every object literal inherits from Object.prototype.
    Reading one of them finds a function (or the prototype itself) instead
    of undefined; [get_prop] does not model them, so the statements that
    look up a key chosen by the caller leave them out. *)
Definition inherited_names : list string :=
  ["constructor"; "hasOwnProperty"; "isPrototypeOf"; "propertyIsEnumerable";
   "toLocaleString"; "toString"; "valueOf"; "__proto__"; "__defineGetter__";
   "__defineSetter__"; "__lookupGetter__"; "__lookupSetter__"]%string.

Definition own_name (key : string) : Prop := ~ In key inherited_names.

(** No answer of the questionnaire is an inherited property name. *)
Definition plain_answers (answers : Answers) : Prop :=
  forall key,
    In (Some key)
      [ans_timeHorizon answers; ans_riskTolerance answers;
       ans_investmentGoal answers; ans_lossTolerance answers;
       ans_knowledgeLevel answers; ans_experience answers;
       ans_incomeStability answers] ->
    own_name key.

(** A scenario with no name, or an empty one. *)
Definition unnamed (scenario : Scenario) : Prop :=
  sc_name scenario = None \/ sc_name scenario = Some EmptyString.


(** What calculateSIP answers on the fields processAnalyticsData reads of a
    scenario. *)
Definition sip_outcome (scenario : Scenario) : completion SIPResult :=
  calculateSIP (num_of (sc_monthlyAmount scenario)) (num_of (sc_period scenario))
    (num_of (sc_expectedReturns scenario)).

(** No asset of the portfolio has an amount (missing, zero or NaN). *)
Definition nothing_invested (portfolio : Portfolio) : Prop :=
  forall entries,
    assets portfolio = Some entries ->
    Forall (fun entry => truthy_opt (a_amount (snd entry)) = false) entries.


(** ** Numbers: evaluation lemmas *)

Lemma Qle_bool_false (x y : Q) : Qle_bool x y = false <-> (y < x)%Q.
Proof.
  rewrite <- not_true_iff_false, Qle_bool_iff.
  split; [apply Qnot_le_lt | apply Qlt_not_le].
Qed.

Lemma Qeq_bool_false (x y : Q) : Qeq_bool x y = false <-> ~ (x == y)%Q.
Proof. rewrite <- not_true_iff_false, Qeq_bool_iff. tauto. Qed.

(** Turns the boolean tests of the context into facts on rationals. *)
Ltac q_facts :=
  repeat match goal with
    | H : Num.is_zero _ = _ |- _ => unfold Num.is_zero in H
    | H : Num.is_pos _ = _ |- _ => unfold Num.is_pos in H
    | H : Num.is_neg _ = _ |- _ => unfold Num.is_neg in H
    | H : negb _ = true |- _ => apply negb_true_iff in H
    | H : negb _ = false |- _ => apply negb_false_iff in H
    | H : Qle_bool _ _ = true |- _ => apply Qle_bool_iff in H
    | H : Qle_bool _ _ = false |- _ => apply Qle_bool_false in H
    | H : Qeq_bool _ _ = true |- _ => apply Qeq_bool_iff in H
    | H : Qeq_bool _ _ = false |- _ => apply Qeq_bool_false in H
    end.

Lemma is_zero_true (q : Q) : Num.is_zero q = true <-> (q == 0)%Q.
Proof. unfold Num.is_zero. apply Qeq_bool_iff. Qed.

Lemma is_zero_false (q : Q) : Num.is_zero q = false <-> ~ (q == 0)%Q.
Proof.
  rewrite <- is_zero_true. destruct (Num.is_zero q); split; congruence.
Qed.

Lemma ltb_fin (x y : Q) : (Fin x <? Fin y) = true <-> (x < y)%Q.
Proof.
  simpl. rewrite negb_true_iff, <- not_true_iff_false, Qle_bool_iff.
  split; [apply Qnot_le_lt | apply Qlt_not_le].
Qed.

Lemma ltb_fin_false (x y : Q) : (Fin x <? Fin y) = false <-> (y <= x)%Q.
Proof. simpl. rewrite negb_false_iff. apply Qle_bool_iff. Qed.

Lemma leb_fin (x y : Q) : (Fin x <=? Fin y) = true <-> (x <= y)%Q.
Proof. simpl. apply Qle_bool_iff. Qed.

Lemma leb_fin_false (x y : Q) : (Fin x <=? Fin y) = false <-> (y < x)%Q.
Proof.
  simpl. rewrite <- not_true_iff_false, Qle_bool_iff.
  split; [apply Qnot_le_lt | apply Qlt_not_le].
Qed.

Lemma div_fin (x y : Q) : ~ (y == 0)%Q -> Fin x / Fin y = Fin (x / y).
Proof. intros H. simpl. apply is_zero_false in H. now rewrite H. Qed.

Lemma as_integer_inject (q : Q) (z : Z) :
  (q == inject_Z z)%Q -> Num.as_integer q = Some z.
Proof.
  intros H. unfold Num.as_integer.
  rewrite (Qred_complete _ _ H).
  assert (E : Qred (inject_Z z) = inject_Z z).
  { apply Qred_identity. simpl. apply Z.gcd_1_r. }
  rewrite E. reflexivity.
Qed.

(** Math.pow at a non-zero base and an integer exponent is the exact power. *)
Lemma Math_pow_integer (b e : Q) (z : Z) :
  ~ (b == 0)%Q -> (e == inject_Z z)%Q ->
  Math_pow (Fin b) (Fin e) = Fin (b ^ z).
Proof.
  intros Hb He. unfold Math_pow.
  destruct (Num.is_zero e) eqn:Ez.
  - apply is_zero_true in Ez. rewrite Ez in He.
    assert (z = 0%Z) as ->.
    { unfold Qeq in He. simpl in He. lia. }
    reflexivity.
  - apply is_zero_false in Hb. rewrite Hb.
    now rewrite (as_integer_inject _ _ He).
Qed.

Lemma round_2_fin (v : Q) :
  round (Fin v) 2 = Fin (inject_Z (Qfloor (v * 100 + (1 # 2))) / 100).
Proof. reflexivity. Qed.


(** ** calculateSIP: validation and evaluation *)

(** A validation test of calculateSIP, [!x || x < 0], lets through exactly
    the numbers that compare greater than zero. *)
Lemma validation_passes (a : num) :
  negb (Num.truthy a) || (a <? 0) = false <-> positive_num a.
Proof.
  unfold positive_num, Num.gtb.
  destruct a as [q | | |]; simpl; try (split; congruence).
  destruct (Num.is_zero q) eqn:Ez; destruct (Qle_bool 0 q) eqn:E1;
    destruct (Qle_bool q 0) eqn:E2; simpl; split; try congruence;
    intros _; exfalso; q_facts; lra.
Qed.

Lemma positive_num_fin (q : Q) : positive_num (Fin q) <-> (0 < q)%Q.
Proof. unfold positive_num, Num.gtb. apply ltb_fin. Qed.

Lemma Qdiv_pos (a b : Q) : (0 < a)%Q -> (0 < b)%Q -> (0 < a / b)%Q.
Proof. intros Ha Hb. apply Qlt_shift_div_l; lra. Qed.

Lemma monthly_rate_pos (r : Q) : (0 < r)%Q -> (0 < r / 100 / 12)%Q.
Proof. intros Hr. repeat apply Qdiv_pos; lra. Qed.

Lemma monthly_rate_fin (r : Q) :
  annualToMonthlyRate (Fin r) = Fin (r / 100 / 12).
Proof. reflexivity. Qed.

(** calculateSIPValue on finite arguments, the month count an integer. *)
Lemma calculateSIPValue_fin (P m i : Q) (n : Z) :
  (0 < i)%Q -> (m == inject_Z n)%Q ->
  calculateSIPValue (Fin P) (Fin m) (Fin i) = Fin (future_value P i n).
Proof.
  intros Hi Hm. unfold calculateSIPValue.
  assert (G : (Fin i >? 0) = true) by (apply ltb_fin; exact Hi).
  rewrite G.
  change (Fin 1 + Fin i) with (Fin (1 + i)).
  rewrite (Math_pow_integer (1 + i) m n) by (lra || exact Hm).
  change (Fin ((1 + i) ^ n) - Fin 1) with (Fin ((1 + i) ^ n - 1)).
  rewrite div_fin by lra.
  reflexivity.
Qed.

(** calculateSIP on finite positive arguments, the month count an integer:
    every field of the result. *)
Lemma calculateSIP_fin (P y r : Q) (n : Z) :
  (0 < P)%Q -> (0 < y)%Q -> (y * 12 == inject_Z n)%Q -> (0 < r)%Q ->
  calculateSIP (Fin P) (Fin y) (Fin r) =
  Return {| monthlyAmount := round (Fin P) 2;
            years := Fin y;
            months := Fin (y * 12);
            annualReturns := round (Fin r) 2;
            monthlyRate := round (Fin (r / 100 / 12)) 6;
            totalInvested := round (Fin (P * (y * 12))) 2;
            maturityValue := round (Fin (future_value P (r / 100 / 12) n)) 2;
            returns :=
              round (Fin (future_value P (r / 100 / 12) n - P * (y * 12))) 2;
            returnPercentage :=
              round (Fin ((future_value P (r / 100 / 12) n - P * (y * 12))
                          / (P * (y * 12)) * 100)) 2 |}.
Proof.
  intros HP Hy Hn Hr. unfold calculateSIP.
  rewrite (proj2 (validation_passes (Fin P))) by (apply positive_num_fin; exact HP).
  rewrite (proj2 (validation_passes (Fin y))) by (apply positive_num_fin; exact Hy).
  rewrite (proj2 (validation_passes (Fin r))) by (apply positive_num_fin; exact Hr).
  rewrite monthly_rate_fin. unfold yearsToMonths.
  change (Fin y * 12) with (Fin (y * 12)).
  pose proof (monthly_rate_pos r Hr) as Hi.
  set (i := (r / 100 / 12)%Q) in *.
  assert (G : (Fin i >? 0) = true) by (apply ltb_fin; exact Hi).
  rewrite G.
  change (Fin 1 + Fin i) with (Fin (1 + i)).
  rewrite (Math_pow_integer (1 + i) (y * 12) n) by (lra || exact Hn).
  change (Fin ((1 + i) ^ n) - Fin 1) with (Fin ((1 + i) ^ n - 1)).
  rewrite (div_fin _ i) by lra.
  change (Fin P * Fin (((1 + i) ^ n - 1) / i) * Fin (1 + i))
    with (Fin (future_value P i n)).
  change (Fin P * Fin (y * 12)) with (Fin (P * (y * 12))).
  change (Fin (future_value P i n) - Fin (P * (y * 12)))
    with (Fin (future_value P i n - P * (y * 12))).
  rewrite (div_fin _ (P * (y * 12))) by nra.
  reflexivity.
Qed.

(** ** The closed form: a geometric sum *)





Lemma inject_Z_succ (n : Z) : (inject_Z (Z.succ n) == inject_Z n + 1)%Q.
Proof. unfold Z.succ. rewrite inject_Z_plus. reflexivity. Qed.





(** ** Rounding to cents *)


Lemma round_2_monotone (v w : Q) :
  (v <= w)%Q ->
  (inject_Z (Qfloor (v * 100 + (1 # 2))) / 100
   <= inject_Z (Qfloor (w * 100 + (1 # 2))) / 100)%Q.
Proof.
  intros H.
  assert (F : (Qfloor (v * 100 + (1 # 2)) <= Qfloor (w * 100 + (1 # 2)))%Z).
  { apply Qfloor_resp_le. lra. }
  rewrite Zle_Qle in F.
  set (f := inject_Z (Qfloor (v * 100 + (1 # 2)))) in *.
  set (g := inject_Z (Qfloor (w * 100 + (1 # 2)))) in *.
  assert (E : (f / 100 == f * (1 # 100))%Q) by (field).
  assert (E' : (g / 100 == g * (1 # 100))%Q) by (field).
  rewrite E, E'. lra.
Qed.


(** C2.  At a rate of zero calculateSIP does not return the sum of the
    contributions: whatever the amount and the period, the call throws, and
    calculateSIP(1000, 1, 0) throws "Annual returns must be a positive
    number".  The branch written for a zero rate is the one calculateSIPValue
    takes: there a zero rate gives amount x months. *)
Theorem calculateSIP_zero_rate_throws :
  (forall a y : num, exists msg, calculateSIP a y 0 = Throw msg) /\
  calculateSIP 1000 1 0 = Throw "Annual returns must be a positive number" /\
  (forall P m : Q, calculateSIPValue (Fin P) (Fin m) 0 = Fin (P * m)).
Proof.
  split; [| split; reflexivity].
  intros a y. unfold calculateSIP.
  destruct (negb (Num.truthy a) || (a <? 0)); [eexists; reflexivity |].
  destruct (negb (Num.truthy y) || (y <? 0)); eexists; reflexivity.
Qed.

Lemma validation_fails (a : num) :
  ~ positive_num a -> negb (Num.truthy a) || (a <? 0) = true.
Proof.
  intros H. destruct (negb (Num.truthy a) || (a <? 0)) eqn:E; [reflexivity |].
  apply validation_passes in E. contradiction.
Qed.

(** C3, as amended.  calculateSIP throws "Monthly amount must be a positive
    number" when the contribution is not greater than zero (zero, negative or
    NaN); otherwise "Years must be a positive number" when the period is not
    greater than zero; otherwise "Annual returns must be a positive number"
    when the rate is negative or NaN.  When all three are greater than zero
    it returns a result that carries the period unchanged and the
    contribution and the rate rounded to two decimals, nothing being replaced
    by a default; and it returns only when contribution and period are
    greater than zero and the rate is greater than or equal to zero. *)
Theorem calculateSIP_validation (a y r : num) :
  (~ positive_num a ->
   calculateSIP a y r = Throw "Monthly amount must be a positive number") /\
  (positive_num a -> ~ positive_num y ->
   calculateSIP a y r = Throw "Years must be a positive number") /\
  (positive_num a -> positive_num y -> ~ positive_num r -> ~ r =~= 0 ->
   calculateSIP a y r = Throw "Annual returns must be a positive number") /\
  (positive_num a -> positive_num y -> positive_num r ->
   exists res, calculateSIP a y r = Return res /\
               years res = y /\
               monthlyAmount res = round a 2 /\
               annualReturns res = round r 2) /\
  ((exists res, calculateSIP a y r = Return res) ->
   positive_num a /\ positive_num y /\ (positive_num r \/ r =~= 0)).
Proof.
  unfold calculateSIP. repeat split.
  - intros Ha. now rewrite (validation_fails a Ha).
  - intros Ha Hy. rewrite (proj2 (validation_passes a) Ha).
    now rewrite (validation_fails y Hy).
  - intros Ha Hy Hr _. rewrite (proj2 (validation_passes a) Ha).
    rewrite (proj2 (validation_passes y) Hy).
    now rewrite (validation_fails r Hr).
  - intros Ha Hy Hr. rewrite (proj2 (validation_passes a) Ha).
    rewrite (proj2 (validation_passes y) Hy).
    rewrite (proj2 (validation_passes r) Hr).
    eexists. split; [reflexivity |]. repeat split.
  - destruct H as [res H].
    destruct (negb (Num.truthy a) || (a <? 0)) eqn:E; [discriminate |].
    now apply validation_passes.
  - destruct H as [res H].
    destruct (negb (Num.truthy a) || (a <? 0)); [discriminate |].
    destruct (negb (Num.truthy y) || (y <? 0)) eqn:E; [discriminate |].
    now apply validation_passes.
  - destruct H as [res H].
    destruct (negb (Num.truthy a) || (a <? 0)); [discriminate |].
    destruct (negb (Num.truthy y) || (y <? 0)); [discriminate |].
    destruct (negb (Num.truthy r) || (r <? 0)) eqn:E; [discriminate |].
    left. now apply validation_passes.
Qed.







(** ** The projection sampler *)

Lemma sample_arrays_snoc (P y rate : num) (months : list Q) (m : Q) :
  push_sample (sample_arrays P y rate months []) (YearFixed1 (Fin m / 12))
    (P * Fin m) (calculateSIPValue P (Fin m) rate)
    (calculateSIPValue P (Fin m) rate - P * Fin m)
  = sample_arrays P y rate (months ++ [m]) [].
Proof.
  unfold push_sample, sample_arrays. cbn [p_labels p_invested p_maturity p_returns].
  rewrite !app_nil_r, !map_app. reflexivity.
Qed.

Lemma sample_arrays_tail (P y rate : num) (months : list Q) (t : Q) :
  push_sample (sample_arrays P y rate months []) (YearOf y)
    (P * Fin t) (calculateSIPValue P (Fin t) rate)
    (calculateSIPValue P (Fin t) rate - P * Fin t)
  = sample_arrays P y rate months [t].
Proof.
  unfold push_sample, sample_arrays. cbn [p_labels p_invested p_maturity p_returns].
  rewrite !app_nil_r, !map_app. reflexivity.
Qed.

(** The loop, entered at month [m] with the samples of [done] pushed, runs
    [k] rounds when the [k] months from [m] on are within the duration and
    the next one is beyond it; any larger fuel gives the same arrays. *)
Lemma projectionLoop_runs (P y rate : num) (T i : Q) (k : nat) :
  forall (fuel : nat) (m : Q) (done : list Q),
    (k < fuel)%nat ->
    (forall x, In x (loop_months i m k) -> (x <= T)%Q) ->
    (T < m + inject_Z (Z.of_nat k) * i)%Q ->
    projectionLoop fuel P rate (Fin T) (Fin i) (Fin m)
      (sample_arrays P y rate done [])
    = Some (sample_arrays P y rate (done ++ loop_months i m k) []).
Proof.
  induction k as [| k IH]; intros fuel m done Hfuel Hin Hend;
    (destruct fuel as [| fuel]; [lia |]); cbn [projectionLoop loop_months].
  - assert (G : (Fin m <=? Fin T) = false).
    { apply leb_fin_false. change (inject_Z (Z.of_nat 0)) with 0%Q in Hend. lra. }
    rewrite G, app_nil_r. reflexivity.
  - assert (G : (Fin m <=? Fin T) = true).
    { apply leb_fin. apply Hin. left. reflexivity. }
    rewrite G. rewrite sample_arrays_snoc.
    change (Fin m + Fin i) with (Fin (m + i)).
    rewrite (IH fuel (m + i)%Q (done ++ [m])).
    + rewrite <- app_assoc. reflexivity.
    + lia.
    + intros x Hx. apply Hin. right. exact Hx.
    + rewrite Nat2Z.inj_succ, inject_Z_succ in Hend. lra.
Qed.

Lemma loop_months_In (i m : Q) (k : nat) (x : Q) :
  In x (loop_months i m k) ->
  exists j : nat, (j < k)%nat /\ (x == m + inject_Z (Z.of_nat j) * i)%Q.
Proof.
  revert m. induction k as [| k IH]; intros m H; [destruct H |].
  destruct H as [<- | H].
  - exists 0%nat. split; [lia |]. change (inject_Z (Z.of_nat 0)) with 0%Q. ring.
  - destruct (IH _ H) as [j [Hj E]]. exists (S j). split; [lia |].
    rewrite E, Nat2Z.inj_succ, inject_Z_succ. ring.
Qed.



Lemma inject_nat_nonneg (j : nat) : (0 <= inject_Z (Z.of_nat j))%Q.
Proof. change 0%Q with (inject_Z 0). rewrite <- Zle_Qle. lia. Qed.






Lemma Qtrunc_integer (q : Q) (j : Z) : (q == inject_Z j)%Q -> Num.Qtrunc q = j.
Proof.
  intros H. unfold Num.Qtrunc.
  destruct (Num.is_neg q).
  - rewrite (Qceiling_comp _ _ H). apply Qceiling_Z.
  - rewrite (Qfloor_comp _ _ H). apply Qfloor_Z.
Qed.

(** [T % i] is zero exactly when [T] is a whole multiple of [i]. *)
Lemma rem_zero_multiple (T i : Q) :
  (0 < i)%Q ->
  ((T - i * inject_Z (Num.Qtrunc (T / i)) == 0)%Q <->
   exists j : Z, (T == i * inject_Z j)%Q).
Proof.
  intros Hi. split.
  - intros H. exists (Num.Qtrunc (T / i)). lra.
  - intros [j Hj].
    assert (E : (T / i == inject_Z j)%Q) by (rewrite Hj; field; lra).
    rewrite (Qtrunc_integer _ _ E). lra.
Qed.

Lemma floor_bounds (T i : Q) :
  (0 < i)%Q ->
  (i * inject_Z (Qfloor (T / i)) <= T)%Q /\
  (T < i * (inject_Z (Qfloor (T / i)) + 1))%Q.
Proof.
  intros Hi.
  pose proof (Qfloor_le (T / i)) as Hl.
  pose proof (Qlt_floor (T / i)) as Hu.
  rewrite inject_Z_plus in Hu. change (inject_Z 1) with 1%Q in Hu.
  assert (E : (i * (T / i) == T)%Q) by (field; lra).
  set (X := (T / i)%Q) in *. set (f := inject_Z (Qfloor X)) in *.
  split; nra.
Qed.



Lemma Return_inj (A : Type) (a b : A) : Return a = Return b -> a = b.
Proof. congruence. Qed.

Lemma eqv_not_gtb (a b : num) : a =~= b -> (a >? b) = false.
Proof.
  unfold Num.gtb.
  destruct a as [x | | |], b as [z | | |]; simpl; try tauto.
  intros H. apply negb_false_iff, Qle_bool_iff. rewrite H. apply Qle_refl.
Qed.

(** C8, as amended.  When compareSIPvsLumpSum returns and the two maturity
    values it reports are equal, the winner it designates is 'Lump Sum'; the
    winner is 'SIP' exactly when the SIP maturity value is strictly the
    greater. *)
Theorem compareSIPvsLumpSum_tie
  (monthlySIP lumpSumAmount y r : num) (c : SIPvsLumpSum) :
  compareSIPvsLumpSum monthlySIP lumpSumAmount y r = Return c ->
  (sipMaturity (comparison c) =~= lumpSumMaturity (comparison c) ->
   winner (comparison c) = "Lump Sum"%string) /\
  (winner (comparison c) = "SIP"%string <->
   (sipMaturity (comparison c) >? lumpSumMaturity (comparison c)) = true).
Proof.
  unfold compareSIPvsLumpSum.
  destruct (calculateSIP monthlySIP y r) as [res | msg]; [| discriminate].
  intros H. apply Return_inj in H. subst c.
  cbn [comparison winner sipMaturity lumpSumMaturity]. split.
  - intros E. now rewrite (eqv_not_gtb _ _ E).
  - destruct (maturityValue res
              >? ls_maturityValue (calculateLumpSum lumpSumAmount y r));
      split; intros E; (reflexivity || discriminate E).
Qed.

Lemma zero_times (a : num) : (Fin 0 * a = NaN) \/ (exists q, Fin 0 * a = Fin q /\ (q == 0)%Q).
Proof.
  destruct a as [q | | |]; simpl; auto.
  right. exists (0 * q)%Q. split; [reflexivity | ring].
Qed.

(** C9.  calculateLumpSum has no branch for a principal of zero: whatever
    the period and the rate, the returnPercentage of
    calculateLumpSum(0, years, annualReturns) is NaN, the 0/0 of
    returns / principal. *)
Theorem calculateLumpSum_zero_principal_NaN :
  (forall y r : num, ls_returnPercentage (calculateLumpSum 0 y r) = NaN) /\
  ls_returnPercentage (calculateLumpSum 0 5 10) = NaN.
Proof.
  assert (G : forall y r : num, ls_returnPercentage (calculateLumpSum 0 y r) = NaN).
  { intros y r. unfold calculateLumpSum. cbn [ls_returnPercentage].
    destruct (zero_times (Math_pow (1 + r / 100) y)) as [E | [q [E Hq]]];
      rewrite E; [reflexivity |].
    change (Fin q - Fin 0) with (Fin (q - 0)).
    assert (Z0 : Num.is_zero (q - 0) = true) by (apply is_zero_true; lra).
    assert (D : Fin (q - 0) / Fin 0 = NaN).
    { unfold Num.div. change (Num.is_zero 0) with true. now rewrite Z0. }
    rewrite D. reflexivity. }
  split; [exact G | apply G].
Qed.




(** ** storage.js: round, clamp, interest *)

Lemma Qfloor_unique (x : Q) (z : Z) :
  (inject_Z z <= x)%Q -> (x < inject_Z z + 1)%Q -> Qfloor x = z.
Proof.
  intros Hl Hu. apply Z.le_antisymm.
  - assert (H : (Qfloor x < z + 1)%Z); [| lia].
    rewrite Zlt_Qlt, inject_Z_plus. change (inject_Z 1) with 1%Q.
    apply Qle_lt_trans with (2 := Hu). apply Qfloor_le.
  - rewrite <- (Qfloor_Z z) at 1. apply Qfloor_resp_le. exact Hl.
Qed.

Lemma pow10_nonzero (d : Z) : ~ (10 ^ d == 0)%Q.
Proof. apply Qpower_not_0. discriminate. Qed.

Lemma round_fin (v : Q) (d : Z) :
  round (Fin v) (Fin (inject_Z d))
  = Fin (inject_Z (Qfloor (v * 10 ^ d + (1 # 2))) / 10 ^ d).
Proof.
  unfold round.
  rewrite (Math_pow_integer 10 (inject_Z d) d) by (discriminate || reflexivity).
  change (Num.Math_round (Fin v * Fin (10 ^ d)))
    with (Fin (inject_Z (Qfloor (v * 10 ^ d + (1 # 2))))).
  apply div_fin. apply pow10_nonzero.
Qed.


(** X2.  clamp(value, min, max) on finite numbers with min <= max returns a
    number between min and max: the value itself when it lies in the range,
    min when it is below and max when it is above.  With min > max it
    returns max whatever the value, and a NaN value gives NaN. *)
Theorem clamp_within_bounds :
  (forall v lo hi : Q,
      (lo <= hi)%Q ->
      exists c,
        clamp (Fin v) (Fin lo) (Fin hi) = Fin c /\
        (lo <= c)%Q /\ (c <= hi)%Q /\
        ((lo <= v)%Q -> (v <= hi)%Q -> c = v) /\
        ((v < lo)%Q -> c = lo) /\
        ((hi < v)%Q -> c = hi)) /\
  (forall v lo hi : Q, (hi < lo)%Q -> clamp (Fin v) (Fin lo) (Fin hi) = Fin hi) /\
  (forall lo hi : num, clamp NaN lo hi = NaN).
Proof.
  split; [| split].
  - intros v lo hi H. unfold clamp, Num.Math_max, Num.Math_min.
    destruct (Fin v <? Fin lo) eqn:E1.
    + apply ltb_fin in E1.
      assert (E2 : (Fin hi <? Fin lo) = false) by (apply ltb_fin_false; exact H).
      rewrite E2. exists lo. repeat split; try lra; intros; try reflexivity; lra.
    + apply ltb_fin_false in E1.
      destruct (Fin hi <? Fin v) eqn:E2.
      * apply ltb_fin in E2. exists hi.
        repeat split; try lra; intros; try reflexivity; lra.
      * apply ltb_fin_false in E2. exists v.
        repeat split; try lra; intros; try reflexivity; lra.
  - intros v lo hi H. unfold clamp, Num.Math_max, Num.Math_min.
    destruct (Fin v <? Fin lo) eqn:E1.
    + assert (E2 : (Fin hi <? Fin lo) = true) by (apply ltb_fin; exact H).
      now rewrite E2.
    + apply ltb_fin_false in E1.
      assert (E2 : (Fin hi <? Fin v) = true) by (apply ltb_fin; lra).
      now rewrite E2.
  - intros lo hi. reflexivity.
Qed.




(** ** calculateYearlyGrowth *)

Lemma yearlyLoop_runs (P rate : num) (y : Q) (k : nat) :
  forall (fuel : nat) (m : Q) (done : list Q),
    (k < fuel)%nat ->
    (forall x, In x (loop_months 1 m k) -> (x <= y)%Q) ->
    (y < m + inject_Z (Z.of_nat k) * 1)%Q ->
    yearlyLoop fuel P (Fin y) rate (Fin m) (map (year_row P rate) done)
    = Some (map (year_row P rate) (done ++ loop_months 1 m k)).
Proof.
  induction k as [| k IH]; intros fuel m done Hfuel Hin Hend;
    (destruct fuel as [| fuel]; [lia |]); cbn [yearlyLoop loop_months].
  - assert (G : (Fin m <=? Fin y) = false).
    { apply leb_fin_false. change (inject_Z (Z.of_nat 0)) with 0%Q in Hend. lra. }
    rewrite G, app_nil_r. reflexivity.
  - assert (G : (Fin m <=? Fin y) = true).
    { apply leb_fin. apply Hin. left. reflexivity. }
    rewrite G.
    change (Fin m + 1) with (Fin (m + 1)).
    match goal with
    | |- yearlyLoop _ _ _ _ _ (_ ++ [?row]) = _ =>
        change [row] with (map (year_row P rate) [m])
    end.
    rewrite <- map_app.
    rewrite (IH fuel (m + 1)%Q (done ++ [m])).
    + rewrite <- app_assoc. reflexivity.
    + lia.
    + intros x Hx. apply Hin. right. exact Hx.
    + rewrite Nat2Z.inj_succ, inject_Z_succ in Hend. lra.
Qed.

Lemma loop_months_length (i m : Q) (k : nat) :
  List.length (loop_months i m k) = k.
Proof.
  revert m. induction k as [| k IH]; intros m; [reflexivity |].
  cbn [loop_months List.length]. now rewrite IH.
Qed.

(** The rows of calculateYearlyGrowth: those of the years 1, 1 + 1, ... up
    to the last whole year within [y]. *)
Lemma calculateYearlyGrowth_rows (P r : num) (y : Q) (fuel : nat) :
  (Z.to_nat (Qfloor y) < fuel)%nat ->
  calculateYearlyGrowth fuel P (Fin y) r
  = Some (map (year_row P (annualToMonthlyRate r))
            (loop_months 1 1 (Z.to_nat (Qfloor y)))).
Proof.
  intros Hfuel. unfold calculateYearlyGrowth.
  pose proof (Qfloor_le y) as Hl. pose proof (Qlt_floor y) as Hu.
  rewrite inject_Z_plus in Hu. change (inject_Z 1) with 1%Q in Hu.
  set (k := Z.to_nat (Qfloor y)) in *.
  assert (Hk : (inject_Z (Qfloor y) <= inject_Z (Z.of_nat k))%Q).
  { rewrite <- Zle_Qle. unfold k. lia. }
  change (@nil YearRow) with (map (year_row P (annualToMonthlyRate r)) []).
  apply (yearlyLoop_runs P (annualToMonthlyRate r) y k fuel 1 [] Hfuel).
  - intros x Hx. destruct (loop_months_In _ _ _ _ Hx) as [j [Hj E]].
    assert (Hj' : (inject_Z (Z.of_nat (S j)) <= inject_Z (Qfloor y))%Q).
    { rewrite <- Zle_Qle. unfold k in Hj. lia. }
    rewrite Nat2Z.inj_succ, inject_Z_succ in Hj'. rewrite E. lra.
  - lra.
Qed.

(** X4.  For a finite period calculateYearlyGrowth (its loop given enough
    rounds) returns one row for each whole year from 1 up to the period, in
    order: as many rows as the period has whole years, none when the period
    is below one year, the row of rank j carrying the year j. *)
Theorem calculateYearlyGrowth_one_row_per_year (P r : num) (y : Q) :
  exists rows : list YearRow,
    (forall fuel, (Z.to_nat (Qfloor y) < fuel)%nat ->
       calculateYearlyGrowth fuel P (Fin y) r = Some rows) /\
    List.length rows = Z.to_nat (Qfloor y) /\
    Forall2 (fun row j => y_year row =~= Fin (inject_Z (Z.of_nat j)))
      rows (seq 1 (Z.to_nat (Qfloor y))) /\
    ((y < 1)%Q -> rows = []).
Proof.
  eexists. split; [intros fuel Hfuel; apply calculateYearlyGrowth_rows; exact Hfuel |].
  split; [now rewrite length_map, loop_months_length |].
  split.
  - assert (G : forall k m s, (m == inject_Z (Z.of_nat s))%Q ->
              Forall2 (fun row j => y_year row =~= Fin (inject_Z (Z.of_nat j)))
                (map (year_row P (annualToMonthlyRate r)) (loop_months 1 m k))
                (seq s k)).
    { induction k as [| k IH]; intros m s Hm; cbn [loop_months seq map];
        constructor; [exact Hm |].
      apply IH. rewrite Hm, Nat2Z.inj_succ, inject_Z_succ. reflexivity. }
    apply G. reflexivity.
  - intros Hy.
    assert (F : (Qfloor y <= 0)%Z).
    { assert (H : (Qfloor y < 1)%Z); [| lia].
      rewrite Zlt_Qlt. change (inject_Z 1) with 1%Q.
      apply Qle_lt_trans with (2 := Hy). apply Qfloor_le. }
    replace (Z.to_nat (Qfloor y)) with 0%nat by lia. reflexivity.
Qed.

Lemma round_2_comp (v w : Q) : (v == w)%Q -> round (Fin v) 2 = round (Fin w) 2.
Proof.
  intros E. rewrite !round_2_fin.
  assert (F : (v * 100 + (1 # 2) == w * 100 + (1 # 2))%Q) by (rewrite E; reflexivity).
  now rewrite (Qfloor_comp _ _ F).
Qed.

Lemma loop_months_last (i m : Q) (k : nat) :
  exists front x,
    loop_months i m (S k) = front ++ [x] /\
    (x == m + inject_Z (Z.of_nat k) * i)%Q.
Proof.
  revert m. induction k as [| k IH]; intros m.
  - exists [], m. split; [reflexivity |].
    change (inject_Z (Z.of_nat 0)) with 0%Q. ring.
  - destruct (IH (m + i)%Q) as [front [x [E Hx]]].
    exists (m :: front), x. split.
    + change (loop_months i m (S (S k))) with (m :: loop_months i (m + i) (S k)).
      rewrite E. reflexivity.
    + rewrite Hx, Nat2Z.inj_succ, inject_Z_succ. ring.
Qed.

(** The row of a year equal to the whole number [Y] has the fields of the
    calculateSIP result for [Y] years. *)
Lemma year_row_matches_calculateSIP (P r x : Q) (Y : Z) :
  (0 < P)%Q -> (0 < Y)%Z -> (0 < r)%Q -> (x == inject_Z Y)%Q ->
  exists res,
    calculateSIP (Fin P) (Fin (inject_Z Y)) (Fin r) = Return res /\
    y_totalInvested (year_row (Fin P) (annualToMonthlyRate (Fin r)) x)
    = totalInvested res /\
    y_currentValue (year_row (Fin P) (annualToMonthlyRate (Fin r)) x)
    = maturityValue res /\
    y_returns (year_row (Fin P) (annualToMonthlyRate (Fin r)) x) = returns res /\
    y_returnPercentage (year_row (Fin P) (annualToMonthlyRate (Fin r)) x)
    = returnPercentage res.
Proof.
  intros HP HY Hr Hx.
  assert (HY' : (0 < inject_Z Y)%Q).
  { change 0%Q with (inject_Z 0). rewrite <- Zlt_Qlt. exact HY. }
  assert (Hn : (inject_Z Y * 12 == inject_Z (Y * 12))%Q).
  { rewrite inject_Z_mult. reflexivity. }
  assert (Hxn : (x * 12 == inject_Z (Y * 12))%Q) by (rewrite Hx; exact Hn).
  rewrite (calculateSIP_fin P (inject_Z Y) r (Y * 12) HP HY' Hn Hr).
  eexists. split; [reflexivity |].
  cbn [totalInvested maturityValue returns returnPercentage].
  unfold year_row.
  cbn [y_totalInvested y_currentValue y_returns y_returnPercentage].
  rewrite monthly_rate_fin.
  pose proof (monthly_rate_pos r Hr) as Hi.
  set (i := (r / 100 / 12)%Q) in *.
  change (Fin x * 12) with (Fin (x * 12)).
  rewrite (calculateSIPValue_fin P (x * 12) i (Y * 12) Hi Hxn).
  change (Fin P * Fin (x * 12)) with (Fin (P * (x * 12))).
  change (Fin (future_value P i (Y * 12)) - Fin (P * (x * 12)))
    with (Fin (future_value P i (Y * 12) - P * (x * 12))).
  assert (Hpos : (0 < P * (x * 12))%Q) by (rewrite Hx; nra).
  assert (G : (Fin (P * (x * 12)) >? 0) = true) by (apply ltb_fin; exact Hpos).
  rewrite G. rewrite (div_fin _ (P * (x * 12))) by lra.
  change (Fin ((future_value P i (Y * 12) - P * (x * 12)) / (P * (x * 12))) * 100)
    with (Fin ((future_value P i (Y * 12) - P * (x * 12)) / (P * (x * 12)) * 100)).
  repeat split; try reflexivity; apply round_2_comp; rewrite Hx; reflexivity.
Qed.

(** X5.  For a positive monthly amount, a positive whole number of years and
    a positive annual return, the last row of calculateYearlyGrowth carries
    the final year and agrees with calculateSIP on the same arguments: its
    totalInvested, currentValue, returns and returnPercentage are the
    totalInvested, maturityValue, returns and returnPercentage of the
    calculateSIP result. *)
Theorem calculateYearlyGrowth_last_row (P r : Q) (Y : Z) :
  (0 < P)%Q -> (0 < Y)%Z -> (0 < r)%Q ->
  exists res rows row,
    calculateSIP (Fin P) (Fin (inject_Z Y)) (Fin r) = Return res /\
    (forall fuel, (Z.to_nat Y < fuel)%nat ->
       calculateYearlyGrowth fuel (Fin P) (Fin (inject_Z Y)) (Fin r)
       = Some (rows ++ [row])) /\
    y_year row =~= Fin (inject_Z Y) /\
    y_totalInvested row = totalInvested res /\
    y_currentValue row = maturityValue res /\
    y_returns row = returns res /\
    y_returnPercentage row = returnPercentage res.
Proof.
  intros HP HY Hr.
  destruct (loop_months_last 1 1 (Z.to_nat (Y - 1))) as [front [x [E Hx]]].
  assert (Hx' : (x == inject_Z Y)%Q).
  { rewrite Hx, Z2Nat.id by lia. unfold Z.sub.
    rewrite inject_Z_plus, inject_Z_opp. change (inject_Z 1) with 1%Q. ring. }
  destruct (year_row_matches_calculateSIP P r x Y HP HY Hr Hx')
    as [res [Hres [H1 [H2 [H3 H4]]]]].
  exists res, (map (year_row (Fin P) (annualToMonthlyRate (Fin r))) front),
    (year_row (Fin P) (annualToMonthlyRate (Fin r)) x).
  split; [exact Hres |]. split.
  - intros fuel Hfuel.
    rewrite calculateYearlyGrowth_rows by (rewrite Qfloor_Z; exact Hfuel).
    rewrite Qfloor_Z.
    replace (Z.to_nat Y) with (S (Z.to_nat (Y - 1))) by lia.
    rewrite E, map_app. reflexivity.
  - split; [exact Hx' |]. repeat split; assumption.
Qed.

(** X6.  When the monthly amount is zero or negative, every row of
    calculateYearlyGrowth has a returnPercentage of 0, whatever the rate:
    the division by the amount invested is guarded and never yields NaN. *)
Theorem calculateYearlyGrowth_guarded_percentage (P y : Q) (r : num) :
  (P <= 0)%Q ->
  exists rows : list YearRow,
    (forall fuel, (Z.to_nat (Qfloor y) < fuel)%nat ->
       calculateYearlyGrowth fuel (Fin P) (Fin y) r = Some rows) /\
    Forall (fun row => y_returnPercentage row =~= 0) rows.
Proof.
  intros HP. eexists.
  split; [intros fuel Hfuel; apply calculateYearlyGrowth_rows; exact Hfuel |].
  apply Forall_forall. intros row Hrow.
  apply in_map_iff in Hrow. destruct Hrow as [x [<- Hx]].
  destruct (loop_months_In _ _ _ _ Hx) as [j [_ E]].
  pose proof (inject_nat_nonneg j) as Hj.
  unfold year_row. cbn [y_returnPercentage].
  change (Fin P * (Fin x * 12)) with (Fin (P * (x * 12))).
  assert (G : (Fin (P * (x * 12)) >? 0) = false).
  { apply ltb_fin_false. rewrite E. nra. }
  rewrite G. vm_compute. reflexivity.
Qed.

(** ** calculateSIPProjections against calculateSIP *)

(** The arrays calculateSIPProjections returns for a positive interval: the
    samples of the months the loop visits, then the final point when
    [T % i] is not zero. *)
Lemma calculateSIPProjections_run (P r : num) (y i : Q) (fuel : nat) :
  (0 < i)%Q ->
  (Z.to_nat (Qfloor (y * 12 / i)) < fuel)%nat ->
  calculateSIPProjections fuel P (Fin y) r (Some (Fin i))
  = Some (sample_arrays P (Fin y) (annualToMonthlyRate r)
            (loop_months i i (Z.to_nat (Qfloor (y * 12 / i))))
            (if Qeq_bool (y * 12 - i * inject_Z (Num.Qtrunc (y * 12 / i))) 0
             then [] else [(y * 12)%Q])).
Proof.
  intros Hi Hfuel.
  set (T := (y * 12)%Q) in *.
  destruct (floor_bounds T i Hi) as [Hlow Hhigh].
  set (f := Qfloor (T / i)) in *.
  set (k := Z.to_nat f) in *.
  assert (Hk : (inject_Z f <= inject_Z (Z.of_nat k))%Q).
  { rewrite <- Zle_Qle. unfold k. lia. }
  assert (Hle : forall x, In x (loop_months i i k) -> (x <= T)%Q).
  { intros x Hx. destruct (loop_months_In _ _ _ _ Hx) as [j [Hj E]].
    assert (Hj' : (inject_Z (Z.of_nat (S j)) <= inject_Z f)%Q).
    { rewrite <- Zle_Qle. unfold k in Hj. lia. }
    rewrite Nat2Z.inj_succ, inject_Z_succ in Hj'. rewrite E. nra. }
  unfold calculateSIPProjections, yearsToMonths.
  change (Fin y * 12) with (Fin T).
  change {| p_labels := []; p_invested := []; p_maturity := []; p_returns := [] |}
    with (sample_arrays P (Fin y) (annualToMonthlyRate r) [] []).
  rewrite (projectionLoop_runs P (Fin y) (annualToMonthlyRate r) T i k fuel i []
             Hfuel Hle) by nra.
  cbn [app].
  assert (R : ((Fin T %% Fin i) !== 0)
              = negb (Qeq_bool (T - i * inject_Z (Num.Qtrunc (T / i))) 0)).
  { unfold Num.rem.
    assert (Z0 : Num.is_zero i = false) by (apply is_zero_false; lra).
    rewrite Z0. reflexivity. }
  rewrite R.
  destruct (Qeq_bool (T - i * inject_Z (Num.Qtrunc (T / i))) 0);
    cbn [negb]; [reflexivity |].
  rewrite sample_arrays_tail. reflexivity.
Qed.

(** X7.  For a positive monthly amount, a positive period with a whole
    number of months, a positive annual return and any positive interval,
    the last point of every series calculateSIPProjections returns is the
    calculateSIP result for the same arguments: the last invested value is
    its totalInvested, the last maturity value its maturityValue and the
    last return its returns. *)
Theorem calculateSIPProjections_ends_at_calculateSIP (P y r i : Q) (n : Z) :
  (0 < P)%Q -> (0 < y)%Q -> (y * 12 == inject_Z n)%Q -> (0 < r)%Q -> (0 < i)%Q ->
  exists res p,
    calculateSIP (Fin P) (Fin y) (Fin r) = Return res /\
    (forall fuel, (Z.to_nat (Qfloor (y * 12 / i)) < fuel)%nat ->
       calculateSIPProjections fuel (Fin P) (Fin y) (Fin r) (Some (Fin i)) = Some p) /\
    last (p_invested p) NaN = totalInvested res /\
    last (p_maturity p) NaN = maturityValue res /\
    last (p_returns p) NaN = returns res.
Proof.
  intros HP Hy Hn Hr Hi.
  rewrite (calculateSIP_fin P y r n HP Hy Hn Hr).
  pose proof (monthly_rate_pos r Hr) as Hrate.
  eexists. eexists. split; [reflexivity |].
  split; [intros fuel Hfuel; apply calculateSIPProjections_run; assumption |].
  cbn [totalInvested maturityValue returns].
  unfold sample_arrays. cbn [p_invested p_maturity p_returns].
  rewrite monthly_rate_fin.
  set (rate := (r / 100 / 12)%Q) in *.
  set (T := (y * 12)%Q) in *.
  assert (Last : exists front x,
             loop_months i i (Z.to_nat (Qfloor (T / i)))
             ++ (if Qeq_bool (T - i * inject_Z (Num.Qtrunc (T / i))) 0
                 then [] else [T])
             = front ++ [x] /\ (x == T)%Q).
  { destruct (Qeq_bool (T - i * inject_Z (Num.Qtrunc (T / i))) 0) eqn:E.
    - apply Qeq_bool_iff, (rem_zero_multiple T i Hi) in E.
      destruct E as [j Hj].
      assert (Ediv : (T / i == inject_Z j)%Q) by (rewrite Hj; field; lra).
      rewrite (Qfloor_comp _ _ Ediv), Qfloor_Z.
      assert (Hj1 : (0 < j)%Z).
      { rewrite Zlt_Qlt. change (inject_Z 0) with 0%Q.
        assert (HT : (0 < T)%Q) by (unfold T; lra). nra. }
      replace (Z.to_nat j) with (S (Z.to_nat (j - 1))) by lia.
      destruct (loop_months_last i i (Z.to_nat (j - 1))) as [front [x [E Hx]]].
      exists front, x. split; [rewrite E; apply app_nil_r |].
      rewrite Hx, Hj, Z2Nat.id by lia. unfold Z.sub.
      rewrite inject_Z_plus, inject_Z_opp. change (inject_Z 1) with 1%Q. ring.
    - eexists. exists T. split; reflexivity. }
  destruct Last as [front [x [E Hx]]]. rewrite E, !map_app.
  cbn [map]. rewrite !last_last.
  assert (Hxn : (x == inject_Z n)%Q) by (rewrite Hx; exact Hn).
  rewrite (calculateSIPValue_fin P x rate n Hrate Hxn).
  change (Fin P * Fin x) with (Fin (P * x)).
  change (Fin (future_value P rate n) - Fin (P * x))
    with (Fin (future_value P rate n - P * x)).
  repeat split; try reflexivity; apply round_2_comp; rewrite Hx; reflexivity.
Qed.

(** ** planner.js: portfolio risk *)

Lemma risk_score_range (assetType : string) :
  exists s,
    or_default (get_prop riskScores assetType) 5 = Fin s /\ (1 <= s)%Q /\ (s <= 8)%Q.
Proof.
  unfold riskScores. cbn [get_prop].
  repeat match goal with
         | |- context [String.eqb ?k assetType] => destruct (String.eqb k assetType)
         end;
    eexists; (split; [reflexivity | split; apply Qle_bool_iff; reflexivity]).
Qed.

(** The two sums calculatePortfolioRisk keeps, and the sum
    validatePortfolioAllocation keeps, over the same assets. *)
Lemma risk_sums (entries : list (string * Asset)) :
  Forall (fun entry => share_ok (snd entry)) entries ->
  forall w t : Q,
  exists w' t',
    fold_left
      (fun (sums : num * num) (entry : string * Asset) =>
         let assetType := fst entry in
         let asset := snd entry in
         let weightedRisk := fst sums in
         let totalAllocation := snd sums in
         if truthy_opt (a_allocation asset) then
           let riskScore := or_default (get_prop riskScores assetType) 5 in
           (weightedRisk + (num_of (a_allocation asset) / 100) * riskScore,
            totalAllocation + num_of (a_allocation asset))
         else sums)
      entries (Fin w, Fin t) = (Fin w', Fin t') /\
    fold_left
      (fun totalAllocation (entry : string * Asset) =>
         let asset := snd entry in
         if truthy_opt (a_allocation asset)
         then totalAllocation + num_of (a_allocation asset)
         else totalAllocation)
      entries (Fin t) = Fin t' /\
    (t <= t')%Q /\
    ((t' - t) * (1 # 100) <= w' - w)%Q /\
    (w' - w <= 8 * (t' - t) * (1 # 100))%Q.
Proof.
  induction 1 as [| [assetType asset] entries Hs _ IH]; intros w t.
  - exists w, t. cbn [fold_left]. repeat split; lra.
  - cbn [fold_left fst snd]. cbv zeta.
    destruct Hs as [Hnone | [q [Hq Hq0]]]; cbn [snd] in *.
    + rewrite Hnone. cbn [truthy_opt]. apply IH.
    + rewrite Hq. cbn [truthy_opt num_of].
      destruct (Num.truthy (Fin q)); [| apply IH].
      destruct (risk_score_range assetType) as [s [Es [Hs1 Hs8]]].
      rewrite Es.
      change (Fin w + Fin q / 100 * Fin s) with (Fin (w + q / 100 * s)).
      change (Fin t + Fin q) with (Fin (t + q)).
      destruct (IH (w + q / 100 * s)%Q (t + q)%Q) as [w' [t' [E1 [E2 [H1 [H2 H3]]]]]].
      exists w', t'. split; [exact E1 |]. split; [exact E2 |].
      assert (E100 : (q / 100 == q * (1 # 100))%Q) by field.
      rewrite E100 in H2, H3.
      repeat split; nra.
Qed.

Lemma floor_between (x : Q) (lo hi : Z) :
  (inject_Z lo <= x)%Q -> (x < inject_Z hi + 1)%Q ->
  (lo <= Qfloor x <= hi)%Z.
Proof.
  intros Hl Hu. split.
  - rewrite <- (Qfloor_Z lo). apply Qfloor_resp_le. exact Hl.
  - assert (H : (Qfloor x < hi + 1)%Z); [| lia].
    rewrite Zlt_Qlt, inject_Z_plus. change (inject_Z 1) with 1%Q.
    apply Qle_lt_trans with (2 := Hu). apply Qfloor_le.
Qed.

(** X8.  For a portfolio whose allocation shares are missing or not
    negative and which validatePortfolioAllocation accepts (shares adding up
    to 100 within 0.01), calculatePortfolioRisk returns a score between 1
    and 8, no asset type being a property name inherited from
    Object.prototype (for such a type the lookup in riskScores finds a
    function, and the score is NaN). *)
Theorem calculatePortfolioRisk_in_scale
  (portfolio : Portfolio) (entries : list (string * Asset)) :
  assets portfolio = Some entries ->
  Forall (fun entry => own_name (fst entry)) entries ->
  Forall (fun entry => share_ok (snd entry)) entries ->
  valid (validatePortfolioAllocation portfolio) = true ->
  exists s,
    calculatePortfolioRisk portfolio = Fin s /\ (1 <= s)%Q /\ (s <= 8)%Q.
Proof.
  intros Ha _ Hs Hv.
  unfold calculatePortfolioRisk, validatePortfolioAllocation in *.
  rewrite Ha in *.
  destruct (risk_sums entries Hs 0 0) as [w [t [E1 [E2 [_ [H2 H3]]]]]].
  cbv beta iota zeta in *.
  rewrite E1. rewrite E2 in Hv. cbn [fst snd].
  change (Fin t - 100) with (Fin (t - 100)) in Hv.
  cbn [Math_abs] in Hv.
  destruct (Fin (Qabs (t - 100)) >? Fin (1 # 100)) eqn:Eabs; [discriminate Hv |].
  apply ltb_fin_false in Eabs. apply Qabs_Qle_condition in Eabs.
  destruct Eabs as [Et1 Et2].
  assert (Z0 : strict_eq (Fin t) 0 = false).
  { unfold strict_eq. cbn [Num.strict_neq].
    apply negb_false_iff, negb_true_iff, Qeq_bool_false. lra. }
  rewrite Z0.
  change (Fin 1) with (Fin (inject_Z 1)). rewrite round_fin.
  change (10 ^ 1)%Q with 10%Q.
  eexists. split; [reflexivity |].
  destruct (floor_between (w * 10 + (1 # 2)) 10 80) as [F1 F2].
  { change (inject_Z 10) with 10%Q. lra. }
  { change (inject_Z 80) with 80%Q. lra. }
  rewrite Zle_Qle in F1, F2.
  change (inject_Z 10) with 10%Q in F1. change (inject_Z 80) with 80%Q in F2.
  set (z := inject_Z (Qfloor (w * 10 + (1 # 2)))) in *.
  assert (E : (z / 10 == z * (1 # 10))%Q) by field.
  rewrite E. split; lra.
Qed.

(** ** planner.js: portfolio returns and goal progress *)

Lemma calculateSIP_negative_years (a h r : num) :
  positive_num a -> (h <? 0) = true ->
  calculateSIP a h r = Throw "Years must be a positive number".
Proof.
  intros Ha Hh. unfold calculateSIP.
  rewrite (proj2 (validation_passes a) Ha), Hh, orb_true_r. reflexivity.
Qed.

Lemma truthy_fin_pos (q : Q) : (0 < q)%Q -> Num.truthy (Fin q) = true.
Proof. intros H. cbn [Num.truthy]. apply negb_true_iff, is_zero_false. lra. Qed.

Lemma positive_truthy (a : num) : (a >? 0) = true -> Num.truthy a = true.
Proof.
  intros H. apply validation_passes in H. apply orb_false_iff in H.
  destruct H as [H _]. now apply negb_false_iff in H.
Qed.

Lemma portfolioReturnsLoop_without_sip (years : num) (entries : list (string * Asset)) :
  Forall (fun entry => fst entry <> "sip"%string) entries ->
  forall currentValue, exists v,
    portfolioReturnsLoop years entries currentValue = Return v.
Proof.
  induction 1 as [| [assetType asset] entries Hty _ IH]; intros currentValue;
    cbn [portfolioReturnsLoop]; [eexists; reflexivity |].
  cbn [fst] in Hty. apply String.eqb_neq in Hty. rewrite Hty. cbn [andb].
  destruct (truthy_opt (a_amount asset) && truthy_opt (a_returns asset)); apply IH.
Qed.

Lemma portfolioReturnsLoop_negative_years
  (years : num) (asset : Asset) (a r : num) (entries : list (string * Asset)) :
  (years <? 0) = true ->
  a_amount asset = Some a -> (a >? 0) = true ->
  a_returns asset = Some r -> Num.truthy r = true ->
  In ("sip"%string, asset) entries ->
  forall currentValue,
    portfolioReturnsLoop years entries currentValue
    = Throw "Years must be a positive number".
Proof.
  intros Hy Ha Hpos Hr Hrt.
  induction entries as [| [assetType asset'] entries IH]; intros Hin currentValue;
    [destruct Hin |].
  cbn [portfolioReturnsLoop].
  destruct Hin as [E | Hin].
  - injection E as -> ->. rewrite Ha, Hr. cbn [truthy_opt num_of].
    rewrite (positive_truthy a Hpos), Hrt, Hpos. cbn [andb String.eqb].
    change (String.eqb "sip" "sip") with true. cbn [andb].
    now rewrite (calculateSIP_negative_years a years (r * 100) Hpos Hy).
  - destruct (truthy_opt (a_amount asset') && truthy_opt (a_returns asset'));
      [| apply IH; exact Hin].
    destruct (String.eqb assetType "sip" && (num_of (a_amount asset') >? 0)) eqn:E;
      [| apply IH; exact Hin].
    apply andb_true_iff in E. destruct E as [_ E].
    now rewrite (calculateSIP_negative_years _ years _ E Hy).
Qed.

(** X9.  calculatePortfolioReturns throws only through a SIP asset: a
    portfolio with no asset of type 'sip' always gets a number back, while a
    negative time horizon together with a 'sip' asset holding a positive
    amount and a non-zero returns figure makes the call throw 'Years must be
    a positive number'. *)
Theorem calculatePortfolioReturns_throws_through_sip (portfolio : Portfolio) :
  ((forall entries, assets portfolio = Some entries ->
                    Forall (fun entry => fst entry <> "sip"%string) entries) ->
   exists v, calculatePortfolioReturns portfolio = Return v) /\
  (forall entries asset h a r,
      assets portfolio = Some entries ->
      pf_timeHorizon portfolio = Some h -> (h <? 0) = true ->
      In ("sip"%string, asset) entries ->
      a_amount asset = Some a -> (a >? 0) = true ->
      a_returns asset = Some r -> Num.truthy r = true ->
      calculatePortfolioReturns portfolio
      = Throw "Years must be a positive number").
Proof.
  unfold calculatePortfolioReturns. split.
  - intros H. destruct (assets portfolio) as [entries |]; [| eexists; reflexivity].
    destruct (negb (truthy_opt (pf_timeHorizon portfolio))); [eexists; reflexivity |].
    destruct (portfolioReturnsLoop_without_sip
                (num_of (pf_timeHorizon portfolio)) entries (H entries eq_refl) 0)
      as [v E].
    rewrite E. eexists. reflexivity.
  - intros entries asset h a r Ha Hh Hneg Hin Hamt Hpos Hret Hrt.
    rewrite Ha, Hh. cbn [truthy_opt num_of].
    assert (Ht : Num.truthy h = true).
    { destruct h as [q | | |]; cbn in Hneg |- *; try discriminate; try reflexivity.
      q_facts. apply negb_true_iff, is_zero_false. lra. }
    rewrite Ht. cbn [negb].
    now rewrite (portfolioReturnsLoop_negative_years h asset a r entries
                   Hneg Hamt Hpos Hret Hrt Hin).
Qed.

Lemma round_2_fixed (v : Q) (z : Z) :
  (v == inject_Z z / 100)%Q -> round (Fin v) 2 =~= Fin v.
Proof.
  intros E. rewrite round_2_fin. cbn [Num.eqv].
  assert (F : (v * 100 + (1 # 2) == inject_Z z + (1 # 2))%Q) by (rewrite E; field).
  rewrite (Qfloor_comp _ _ F), (Qfloor_unique (inject_Z z + (1 # 2)) z) by lra.
  rewrite E. reflexivity.
Qed.

(** X10.  A portfolio whose only asset is a 'sip' asset (positive amount
    [a], positive returns figure [r]), over a positive horizon with a whole
    number of months, is valued by calculatePortfolioReturns at the
    maturityValue of calculateSIP(a, horizon, r x 100): the returns figure
    reaches calculateSIP multiplied by 100. *)
Theorem calculatePortfolioReturns_single_sip
  (a y r : Q) (n : Z) (allocation target : option num) :
  (0 < a)%Q -> (0 < y)%Q -> (y * 12 == inject_Z n)%Q -> (0 < r)%Q ->
  exists res v,
    calculateSIP (Fin a) (Fin y) (Fin (r * 100)) = Return res /\
    calculatePortfolioReturns
      {| assets :=
           Some [("sip"%string,
                  {| a_amount := Some (Fin a);
                     a_returns := Some (Fin r);
                     a_allocation := allocation |})];
         pf_timeHorizon := Some (Fin y);
         targetAmount := target |}
    = Return v /\
    v =~= maturityValue res.
Proof.
  intros Ha Hy Hn Hr.
  assert (Hr' : (0 < r * 100)%Q) by lra.
  pose proof (calculateSIP_fin a y (r * 100) n Ha Hy Hn Hr') as E.
  rewrite E. eexists. eexists. split; [reflexivity |].
  unfold calculatePortfolioReturns.
  cbn [assets pf_timeHorizon truthy_opt num_of portfolioReturnsLoop
       a_amount a_returns].
  assert (Ty : Num.truthy (Fin y) = true) by (apply truthy_fin_pos; exact Hy).
  assert (Ta : Num.truthy (Fin a) = true) by (apply truthy_fin_pos; exact Ha).
  assert (Tr : Num.truthy (Fin r) = true) by (apply truthy_fin_pos; exact Hr).
  assert (Ga : (Fin a >? 0) = true) by (apply ltb_fin; exact Ha).
  rewrite Ty, Ta, Tr, Ga. cbn [negb andb].
  change (String.eqb "sip" "sip") with true. cbn [andb].
  change (Fin r * 100) with (Fin (r * 100)). rewrite E.
  cbn [maturityValue]. rewrite round_2_fin.
  change (Fin 0 + Fin (inject_Z (Qfloor
            (future_value a (r * 100 / 100 / 12) n * 100 + (1 # 2))) / 100))
    with (Fin (0 + inject_Z (Qfloor
            (future_value a (r * 100 / 100 / 12) n * 100 + (1 # 2))) / 100)).
  split; [reflexivity |].
  set (z := Qfloor (future_value a (r * 100 / 100 / 12) n * 100 + (1 # 2))).
  pose proof (round_2_fixed (0 + inject_Z z / 100) z ltac:(ring)) as F.
  destruct (round (Fin (0 + inject_Z z / 100)) 2) as [q | | |];
    cbn [Num.eqv] in *; try contradiction.
  rewrite F. ring.
Qed.

(** X11.  Without a target greater than zero calculateGoalProgress returns
    null, even for a portfolio whose returns cannot be computed.  With a
    finite positive target and a finite portfolio value, the remaining
    amount it reports is never negative, isAchieved tells whether the value
    has reached the target, an achieved goal has nothing remaining and a
    progress of at least 100, and a goal not achieved has a progress of at
    most 100. *)
Theorem calculateGoalProgress_invariants (portfolio : Portfolio) :
  ((truthy_opt (targetAmount portfolio) = false \/
    (num_of (targetAmount portfolio) <=? 0) = true) ->
   calculateGoalProgress portfolio = Return None) /\
  (forall t cv : Q,
      targetAmount portfolio = Some (Fin t) -> (0 < t)%Q ->
      calculatePortfolioReturns portfolio = Return (Fin cv) ->
      exists g rem prog,
        calculateGoalProgress portfolio = Return (Some g) /\
        g_remaining g = Fin rem /\ g_progress g = Fin prog /\
        (0 <= rem)%Q /\
        (g_isAchieved g = true <-> (t <= cv)%Q) /\
        (g_isAchieved g = true -> (rem == 0)%Q /\ (100 <= prog)%Q) /\
        (g_isAchieved g = false -> (prog <= 100)%Q)).
Proof.
  unfold calculateGoalProgress. split.
  - intros [H | H]; rewrite H; [reflexivity | now rewrite orb_true_r].
  - intros t cv Ht Hpos Hcv. rewrite Ht, Hcv. cbn [truthy_opt num_of].
    assert (Tt : Num.truthy (Fin t) = true) by (apply truthy_fin_pos; exact Hpos).
    assert (Lt : (Fin t <=? 0) = false) by (apply leb_fin_false; exact Hpos).
    rewrite Tt, Lt. cbn [negb orb].
    rewrite (div_fin cv t) by lra.
    change (Fin (cv / t) * 100) with (Fin (cv / t * 100)).
    change (Fin t - Fin cv) with (Fin (t - cv)).
    assert (Ediv : (cv / t * t == cv)%Q) by (field; lra).
    set (X := (cv / t)%Q) in *.
    pose proof (round_2_monotone 100 (X * 100)) as M1.
    pose proof (round_2_monotone (X * 100) 100) as M2.
    assert (R100 : (inject_Z (Qfloor (100 * 100 + (1 # 2))) / 100 == 100)%Q)
      by reflexivity.
    rewrite R100 in M1, M2.
    unfold geb, Num.Math_max.
    destruct (Fin 0 <? Fin (t - cv)) eqn:Erem.
    + apply ltb_fin in Erem.
      assert (G : (Fin t <=? Fin cv) = false) by (apply leb_fin_false; lra).
      rewrite G. do 3 eexists. split; [reflexivity |].
      cbn [g_remaining g_progress g_isAchieved]. rewrite !round_2_fin.
      split; [reflexivity |]. split; [reflexivity |].
      pose proof (round_2_monotone 0 (t - cv) ltac:(lra)) as M0.
      change (inject_Z (Qfloor (0 * 100 + (1 # 2))) / 100)%Q with (0 / 100)%Q in M0.
      assert (E0 : (0 / 100 == 0)%Q) by reflexivity. rewrite E0 in M0.
      split; [exact M0 |].
      split; [split; [discriminate | intros H; lra] |].
      split; [discriminate |].
      intros _. apply M2. nra.
    + apply ltb_fin_false in Erem.
      assert (G : (Fin t <=? Fin cv) = true) by (apply leb_fin; lra).
      rewrite G. do 3 eexists. split; [reflexivity |].
      cbn [g_remaining g_progress g_isAchieved]. rewrite !round_2_fin.
      split; [reflexivity |]. split; [reflexivity |].
      assert (E0 : (inject_Z (Qfloor (0 * 100 + (1 # 2))) / 100 == 0)%Q)
        by reflexivity.
      split; [rewrite E0; lra |].
      split; [split; [intros _; lra | reflexivity] |].
      split; [| discriminate].
      intros _. split; [exact E0 |]. apply M1. nra.
Qed.

(** ** analytics.js: calculateAggregateStats *)

Lemma distribution_counts (l : list Investment) (d : RiskDistribution) :
  let d' :=
    fold_left
      (fun dist inv =>
         if inv_roi inv <? 8 then
           {| low := S (low dist); medium := medium dist; high := high dist |}
         else if inv_roi inv <? 15 then
           {| low := low dist; medium := S (medium dist); high := high dist |}
         else
           {| low := low dist; medium := medium dist; high := S (high dist) |})
      l d in
  (low d' + medium d' + high d' = low d + medium d + high d + List.length l)%nat.
Proof.
  revert d. induction l as [| inv l IH]; intros d; cbn [fold_left List.length].
  - cbv zeta. lia.
  - cbv zeta in IH |- *. rewrite IH.
    destruct (inv_roi inv <? 8); [| destruct (inv_roi inv <? 15)];
      cbn [low medium high]; lia.
Qed.

(** X12.  In the statistics calculateAggregateStats returns, the low, medium
    and high counts of riskDistribution always add up to totalInvestments,
    the number of portfolios plus the number of SIPs, whatever the returns
    (NaN included, which is counted as high). *)
Theorem calculateAggregateStats_distribution_total (analytics : Analytics) :
  let stats := calculateAggregateStats analytics in
  (low (riskDistribution stats) + medium (riskDistribution stats)
   + high (riskDistribution stats))%nat
  = totalInvestments stats /\
  totalInvestments stats
  = (List.length (an_portfolios analytics) + List.length (an_sips analytics))%nat.
Proof.
  cbv zeta. unfold calculateAggregateStats.
  set (all := map (fun p => PortfolioInvestment (pe_metrics p) (pe_name p))
                (an_portfolios analytics)
              ++ map (fun s => SipInvestment (returnPercentage (se_result s))
                                 (se_name s))
                   (an_sips analytics)).
  assert (L : List.length all
              = (List.length (an_portfolios analytics)
                 + List.length (an_sips analytics))%nat).
  { unfold all. now rewrite List.length_app, !length_map. }
  destruct all as [| first rest] eqn:E; cbn [riskDistribution totalInvestments].
  - cbn [low medium high]. cbn [List.length] in L. split; [lia | reflexivity].
  - split; [| reflexivity].
    pose proof (distribution_counts (first :: rest)
                  {| low := 0; medium := 0; high := 0 |}) as C.
    cbv zeta in C. rewrite C. cbn [low medium high]. lia.
Qed.





(** ** ai-engine.js: assessRiskProfile *)

Lemma truthy_fin_nonzero (q : Q) : Num.truthy (Fin q) = true <-> ~ (q == 0)%Q.
Proof. cbn [Num.truthy]. rewrite negb_true_iff. apply is_zero_false. Qed.

Lemma answer_score_range (table : Allocation) (answer : option string) (d lo hi : Q) :
  Forall (fun kv => exists q, snd kv = Fin q /\ (lo <= q)%Q /\ (q <= hi)%Q /\
                              ~ (q == 0)%Q) table ->
  (lo <= d)%Q -> (d <= hi)%Q ->
  exists q, answer_score table answer (Fin d) = Fin q /\ (lo <= q)%Q /\ (q <= hi)%Q.
Proof.
  intros Ht Hd1 Hd2. destruct answer as [key |]; cbn [answer_score];
    [| exists d; repeat split; assumption].
  induction Ht as [| [k v] table [q [Hv [H1 [H2 H0]]]] _ IH]; cbn [get_prop].
  - exists d. repeat split; assumption.
  - destruct (String.eqb k key); [| exact IH].
    cbn [snd] in Hv. subst v. unfold or_default.
    rewrite (proj2 (truthy_fin_nonzero q) H0).
    exists q. repeat split; assumption.
Qed.

Lemma round_1_between (x : Q) (a b : Z) :
  (inject_Z a / 10 <= x)%Q -> (x <= inject_Z b / 10)%Q ->
  exists s, round (Fin x) 1 = Fin s /\
            (inject_Z a / 10 <= s)%Q /\ (s <= inject_Z b / 10)%Q.
Proof.
  intros Ha Hb.
  change (Fin 1) with (Fin (inject_Z 1)). rewrite round_fin.
  change (10 ^ 1)%Q with 10%Q. eexists. split; [reflexivity |].
  assert (Ea : (inject_Z a / 10 == inject_Z a * (1 # 10))%Q) by field.
  assert (Eb : (inject_Z b / 10 == inject_Z b * (1 # 10))%Q) by field.
  rewrite Ea in *. rewrite Eb in *.
  destruct (floor_between (x * 10 + (1 # 2)) a b) as [F1 F2]; [lra | lra |].
  rewrite Zle_Qle in F1, F2.
  set (z := inject_Z (Qfloor (x * 10 + (1 # 2)))) in *.
  assert (E : (z / 10 == z * (1 # 10))%Q) by field.
  rewrite E. split; lra.
Qed.

(** Discharges the range facts of a literal table of scores. *)
Ltac table_in_range :=
  repeat (constructor;
          [eexists; split; [reflexivity |];
           split; [apply Qle_bool_iff; reflexivity |];
           split; [apply Qle_bool_iff; reflexivity | discriminate] |]);
  constructor.

(** X14.  Whatever the answers (any of them missing or unknown included,
    none being a property name inherited from Object.prototype, for which
    the lookup finds a function and the score is NaN), the riskScore
    assessRiskProfile reports lies between 16.3 and 90.4, so neither end of
    its 0-100 scale is ever reached, and the riskLevel agrees with it:
    Conservative comes with a score of at most 35, Aggressive with a score
    of at least 65, Moderate with a score from 35 to 65. *)
Theorem assessRiskProfile_score_range (answers : Answers) (now : string) :
  plain_answers answers ->
  exists s,
    rp_riskScore (assessRiskProfile answers now) = Fin s /\
    (16.3 <= s)%Q /\ (s <= 90.4)%Q /\
    ((rp_riskLevel (assessRiskProfile answers now) = "Conservative"%string /\
      (s <= 35)%Q) \/
     (rp_riskLevel (assessRiskProfile answers now) = "Moderate"%string /\
      (35 <= s)%Q /\ (s <= 65)%Q) \/
     (rp_riskLevel (assessRiskProfile answers now) = "Aggressive"%string /\
      (65 <= s)%Q)).
Proof.
  intros _.
  unfold assessRiskProfile. cbv zeta. cbn [rp_riskScore rp_riskLevel].
  repeat match goal with
         | |- context [get_prop ?w ?k] =>
             let v := eval vm_compute in (get_prop w k) in
             change (get_prop w k) with v
         end.
  match goal with
  | |- context [fold_left ?f ?l ?z] =>
      let v := eval vm_compute in (fold_left f l z) in
      change (fold_left f l z) with v
  end.
  match goal with
  | |- context [answer_score ?t (ans_timeHorizon answers) _] =>
      destruct (answer_score_range t (ans_timeHorizon answers) 3 1 7)
        as [q1 [E1 [L1 U1]]]; [table_in_range | lra | lra |]
  end.
  match goal with
  | |- context [answer_score ?t (ans_riskTolerance answers) _] =>
      destruct (answer_score_range t (ans_riskTolerance answers) 3 1 7)
        as [q2 [E2 [L2 U2]]]; [table_in_range | lra | lra |]
  end.
  match goal with
  | |- context [answer_score ?t (ans_investmentGoal answers) _] =>
      destruct (answer_score_range t (ans_investmentGoal answers) 4 1 8)
        as [q3 [E3 [L3 U3]]]; [table_in_range | lra | lra |]
  end.
  match goal with
  | |- context [answer_score ?t (ans_lossTolerance answers) _] =>
      destruct (answer_score_range t (ans_lossTolerance answers) 4 1 8)
        as [q4 [E4 [L4 U4]]]; [table_in_range | lra | lra |]
  end.
  match goal with
  | |- context [answer_score ?t (ans_knowledgeLevel answers) _] =>
      destruct (answer_score_range t (ans_knowledgeLevel answers) 4 2 7)
        as [q5 [E5 [L5 U5]]]; [table_in_range | lra | lra |]
  end.
  match goal with
  | |- context [answer_score ?t (ans_experience answers) _] =>
      destruct (answer_score_range t (ans_experience answers) 4 2 6)
        as [q6 [E6 [L6 U6]]]; [table_in_range | lra | lra |]
  end.
  match goal with
  | |- context [answer_score ?t (ans_incomeStability answers) _] =>
      destruct (answer_score_range t (ans_incomeStability answers) 5 3 6)
        as [q7 [E7 [L7 U7]]]; [table_in_range | lra | lra |]
  end.
  rewrite E1, E2, E3, E4, E5, E6, E7.
  cbn [Num.add Num.mul].
  match goal with
  | |- context [Fin ?S / Fin ?M] => rewrite (div_fin S M) by discriminate
  end.
  cbn [Num.mul].
  match goal with
  | |- context [round (Fin (?S / ?M * 100)) _] =>
      set (x := (S / M * 100)%Q);
      assert (Hx : (x == S * (100 # 104))%Q) by (unfold x; field)
  end.
  assert (Lx : (17 * (100 # 104) <= x)%Q) by (rewrite Hx; lra).
  assert (Ux : (x <= 94 * (100 # 104))%Q) by (rewrite Hx; lra).
  clearbody x.
  unfold Num.gtb.
  destruct (Fin x <? 35) eqn:C35.
  - apply ltb_fin in C35.
    destruct (round_1_between x 163 350) as [s [Es [Ls Us]]];
      [change (inject_Z 163 / 10)%Q with 16.3%Q; lra
      | change (inject_Z 350 / 10)%Q with (350 / 10)%Q;
        assert (E : (350 / 10 == 35)%Q) by reflexivity; rewrite E; lra |].
    exists s. split; [exact Es |].
    change (inject_Z 163 / 10)%Q with 16.3%Q in Ls.
    assert (E : (inject_Z 350 / 10 == 35)%Q) by reflexivity. rewrite E in Us.
    split; [exact Ls |]. split; [lra |]. left. split; [reflexivity | exact Us].
  - apply ltb_fin_false in C35.
    destruct (Fin 65 <? Fin x) eqn:C65.
    + apply ltb_fin in C65.
      destruct (round_1_between x 650 904) as [s [Es [Ls Us]]];
        [assert (E : (inject_Z 650 / 10 == 65)%Q) by reflexivity; rewrite E; lra
        | change (inject_Z 904 / 10)%Q with 90.4%Q; lra |].
      exists s. split; [exact Es |].
      change (inject_Z 904 / 10)%Q with 90.4%Q in Us.
      assert (E : (inject_Z 650 / 10 == 65)%Q) by reflexivity. rewrite E in Ls.
      split; [lra |]. split; [exact Us |].
      right. right. split; [reflexivity | exact Ls].
    + apply ltb_fin_false in C65.
      destruct (round_1_between x 350 650) as [s [Es [Ls Us]]];
        [assert (E : (inject_Z 350 / 10 == 35)%Q) by reflexivity; rewrite E; lra
        | assert (E : (inject_Z 650 / 10 == 65)%Q) by reflexivity; rewrite E; lra |].
      exists s. split; [exact Es |].
      assert (E1' : (inject_Z 350 / 10 == 35)%Q) by reflexivity. rewrite E1' in Ls.
      assert (E2' : (inject_Z 650 / 10 == 65)%Q) by reflexivity. rewrite E2' in Us.
      split; [lra |]. split; [lra |].
      right. left. split; [reflexivity |]. split; assumption.
Qed.

(** ** More on calculateSIP, calculateLumpSum and compareSIPvsLumpSum *)









(** ** calculateMultipleSIPs *)

Lemma multipleSIPsFrom_valid (scenarios rest : list (nat * Scenario)) :
  Forall (fun e => scenario_valid (snd e)) rest ->
  exists results,
    multipleSIPsFrom scenarios rest = Return results /\
    Forall2 (fun e nr => scenario_outcome (snd e) = Return (nr_result nr))
      rest results.
Proof.
  induction 1 as [| [ref scenario] rest [res Hres] _ [results [IH1 IH2]]];
    cbn [multipleSIPsFrom].
  - exists []. split; [reflexivity | constructor].
  - cbn [snd] in Hres. unfold scenario_outcome in Hres. rewrite Hres, IH1.
    eexists. split; [reflexivity |].
    constructor; [exact Hres | exact IH2].
Qed.

Lemma multipleSIPsFrom_throws
  (scenarios before after : list (nat * Scenario)) (e : nat * Scenario)
  (msg : string) :
  Forall (fun e => scenario_valid (snd e)) before ->
  scenario_outcome (snd e) = Throw msg ->
  multipleSIPsFrom scenarios (before ++ e :: after) = Throw msg.
Proof.
  intros Hb He.
  induction Hb as [| [ref scenario] before [res Hres] _ IH]; cbn [app multipleSIPsFrom].
  - destruct e as [ref scenario]. cbn [snd] in He.
    unfold scenario_outcome in He. now rewrite He.
  - cbn [snd] in Hres. unfold scenario_outcome in Hres. now rewrite Hres, IH.
Qed.

(** X19.  calculateMultipleSIPs returns, when calculateSIP accepts every
    scenario, one result for each scenario, in order, each the calculateSIP
    result of its scenario; and when a scenario is refused, all those before
    it being accepted, the whole call throws the error of that scenario and
    returns nothing. *)
Theorem calculateMultipleSIPs_all_or_nothing :
  (forall scenarios : list (nat * Scenario),
      Forall (fun e => scenario_valid (snd e)) scenarios ->
      exists results,
        calculateMultipleSIPs scenarios = Return results /\
        Forall2 (fun e nr => scenario_outcome (snd e) = Return (nr_result nr))
          scenarios results) /\
  (forall (before after : list (nat * Scenario)) (e : nat * Scenario) (msg : string),
      Forall (fun e => scenario_valid (snd e)) before ->
      scenario_outcome (snd e) = Throw msg ->
      calculateMultipleSIPs (before ++ e :: after) = Throw msg).
Proof.
  split.
  - intros scenarios H. apply multipleSIPsFrom_valid. exact H.
  - intros before after e msg Hb He. apply multipleSIPsFrom_throws; assumption.
Qed.

Lemma indexOf_first (before after : list (nat * Scenario)) (ref : nat)
  (scenario : Scenario) (from : Z) :
  ~ In ref (map fst before) ->
  indexOf (before ++ (ref, scenario) :: after) ref from
  = (from + Z.of_nat (List.length before))%Z.
Proof.
  revert from. induction before as [| [r s] before IH]; intros from Hnot;
    cbn [app indexOf List.length].
  - rewrite Nat.eqb_refl. lia.
  - cbn [map fst In] in Hnot.
    destruct (Nat.eqb_spec r ref) as [E | _]; [exfalso; apply Hnot; left; exact E |].
    rewrite IH by (intros H; apply Hnot; right; exact H). lia.
Qed.

Lemma multipleSIPsFrom_name
  (scenarios before after : list (nat * Scenario)) (ref : nat) (scenario : Scenario)
  (results : list NamedResult) :
  multipleSIPsFrom scenarios (before ++ (ref, scenario) :: after) = Return results ->
  unnamed scenario ->
  exists nr,
    nth_error results (List.length before) = Some nr /\
    nr_name nr
    = (("SIP " ++ NilZero.string_of_int (Z.to_int (indexOf scenarios ref 0)))
       ++ "1")%string.
Proof.
  revert results. induction before as [| [r s] before IH]; intros results H Hname;
    cbn [app multipleSIPsFrom] in H.
  - destruct (calculateSIP _ _ _) as [res | msg]; [| discriminate H].
    destruct (multipleSIPsFrom scenarios after) as [rs | msg]; [| discriminate H].
    apply Return_inj in H. subst results.
    eexists. split; [reflexivity |]. cbn [nr_name].
    destruct Hname as [-> | ->]; reflexivity.
  - destruct (calculateSIP _ _ _) as [res | msg]; [| discriminate H].
    destruct (multipleSIPsFrom scenarios (before ++ (ref, scenario) :: after))
      as [rs | msg]; [| discriminate H].
    apply Return_inj in H. subst results.
    destruct (IH rs eq_refl Hname) as [nr [E1 E2]].
    exists nr. split; [exact E1 | exact E2].
Qed.

(** X20.  In what calculateMultipleSIPs returns, a scenario without a name
    that stands at position k of the array, no earlier element being the
    same object, is named 'SIP ' followed by k and then by the digit 1: the
    first one is 'SIP 01', the second 'SIP 11'. *)
Theorem calculateMultipleSIPs_default_name
  (before after : list (nat * Scenario)) (ref : nat) (scenario : Scenario)
  (results : list NamedResult) :
  calculateMultipleSIPs (before ++ (ref, scenario) :: after) = Return results ->
  unnamed scenario ->
  ~ In ref (map fst before) ->
  exists nr,
    nth_error results (List.length before) = Some nr /\
    nr_name nr
    = (("SIP " ++ NilZero.string_of_int (Z.to_int (Z.of_nat (List.length before))))
       ++ "1")%string.
Proof.
  intros H Hname Hnot. unfold calculateMultipleSIPs in H.
  destruct (multipleSIPsFrom_name _ before after ref scenario results H Hname)
    as [nr [E1 E2]].
  exists nr. split; [exact E1 |].
  rewrite E2, (indexOf_first before after ref scenario 0 Hnot). reflexivity.
Qed.

(** ** planner.js: calculatePortfolioMetrics *)

Lemma nothing_invested_value (portfolio : Portfolio) :
  nothing_invested portfolio ->
  calculatePortfolioValue portfolio = round (Fin 0) 2.
Proof.
  intros H. unfold calculatePortfolioValue.
  destruct (assets portfolio) as [entries |] eqn:Ea; [| reflexivity].
  specialize (H entries Ea). clear Ea. f_equal.
  induction H as [| [k a] entries Hx _ IH]; [reflexivity |].
  cbn [fold_left snd] in *. rewrite Hx. exact IH.
Qed.

(** X21.  calculatePortfolioMetrics returns exactly when
    calculatePortfolioReturns does and throws its error otherwise: the
    second valuation, made inside calculateGoalProgress, cannot fail once
    the first has succeeded.  The metrics carry the results of
    calculateWeightedAverageReturn, calculatePortfolioRisk and
    calculateGoalProgress unchanged, and the roi is 0, not NaN, when no asset
    has an amount. *)
Theorem calculatePortfolioMetrics_outcome (portfolio : Portfolio) :
  (forall msg,
      calculatePortfolioReturns portfolio = Throw msg ->
      calculatePortfolioMetrics portfolio = Throw msg) /\
  (forall v,
      calculatePortfolioReturns portfolio = Return v ->
      exists m,
        calculatePortfolioMetrics portfolio = Return m /\
        m_weightedAverageReturn m = calculateWeightedAverageReturn portfolio /\
        m_riskScore m = calculatePortfolioRisk portfolio /\
        calculateGoalProgress portfolio = Return (m_goalProgress m) /\
        (nothing_invested portfolio -> m_roi m =~= 0)).
Proof.
  split.
  - intros msg H. unfold calculatePortfolioMetrics. rewrite H. reflexivity.
  - intros v H. unfold calculatePortfolioMetrics. rewrite H.
    unfold calculateGoalProgress. rewrite H.
    destruct (negb (truthy_opt (targetAmount portfolio))
              || (num_of (targetAmount portfolio) <=? 0));
      (eexists; split; [reflexivity |]; cbn [m_weightedAverageReturn m_riskScore
                                               m_goalProgress m_roi];
       split; [reflexivity | split; [reflexivity | split; [reflexivity |]]];
       intros Hn; rewrite (nothing_invested_value portfolio Hn);
       vm_compute; reflexivity).
Qed.

(** ** analytics.js: processAnalyticsData *)

Lemma processPortfolios_runs (portfolios : list (option string * Portfolio)) :
  Forall (fun p => exists m, calculatePortfolioMetrics (snd p) = Return m) portfolios ->
  forall analytics, exists done entries,
    processPortfolios portfolios analytics = Return done /\
    pa_portfolios done = pa_portfolios analytics ++ entries /\
    pa_sips done = pa_sips analytics /\
    Forall2 (fun p e => pe_name e = fst p /\
                        calculatePortfolioMetrics (snd p) = Return (pe_metrics e))
      portfolios entries.
Proof.
  induction 1 as [| [name portfolio] rest [m Hm] _ IH]; intros analytics;
    cbn [processPortfolios].
  - exists analytics, []. rewrite app_nil_r.
    split; [reflexivity | split; [reflexivity | split; [reflexivity | constructor]]].
  - cbn [snd] in Hm. rewrite Hm.
    match goal with
    | |- context [processPortfolios rest ?a] =>
        destruct (IH a) as [done [entries [E1 [E2 [E3 E4]]]]]
    end.
    cbn [pa_portfolios pa_sips] in E2, E3.
    exists done, ({| pe_name := name; pe_metrics := m |} :: entries).
    split; [exact E1 |]. split; [rewrite E2, <- app_assoc; reflexivity |].
    split; [exact E3 |].
    constructor; [split; [reflexivity | exact Hm] | exact E4].
Qed.

Lemma processSips_runs (sipScenarios : list Scenario) :
  Forall (fun s => exists r, sip_outcome s = Return r) sipScenarios ->
  forall analytics, exists done entries,
    processSips sipScenarios analytics = Return done /\
    pa_portfolios done = pa_portfolios analytics /\
    pa_sips done = pa_sips analytics ++ entries /\
    Forall2 (fun s e => se_name e = sc_name s /\ sip_outcome s = Return (se_result e))
      sipScenarios entries.
Proof.
  induction 1 as [| scenario rest [r Hr] _ IH]; intros analytics;
    cbn [processSips].
  - exists analytics, []. rewrite app_nil_r.
    split; [reflexivity | split; [reflexivity | split; [reflexivity | constructor]]].
  - unfold sip_outcome in Hr. rewrite Hr.
    match goal with
    | |- context [processSips rest ?a] =>
        destruct (IH a) as [done [entries [E1 [E2 [E3 E4]]]]]
    end.
    cbn [pa_portfolios pa_sips] in E2, E3.
    exists done, ({| se_name := sc_name scenario; se_result := r |} :: entries).
    split; [exact E1 |]. split; [exact E2 |].
    split; [rewrite E3, <- app_assoc; reflexivity |].
    constructor; [split; [reflexivity | exact Hr] | exact E4].
Qed.

Lemma processPortfolios_throws (portfolios : list (option string * Portfolio)) :
  Exists (fun p => exists msg, calculatePortfolioMetrics (snd p) = Throw msg)
    portfolios ->
  forall analytics, exists msg, processPortfolios portfolios analytics = Throw msg.
Proof.
  induction 1 as [[name portfolio] rest [msg Hm] | [name portfolio] rest _ IH];
    intros analytics; cbn [processPortfolios].
  - cbn [snd] in Hm. rewrite Hm. exists msg. reflexivity.
  - destruct (calculatePortfolioMetrics portfolio) as [m | msg];
      [apply IH | exists msg; reflexivity].
Qed.

Lemma processSips_throws (sipScenarios : list Scenario) :
  Exists (fun s => exists msg, sip_outcome s = Throw msg) sipScenarios ->
  forall analytics, exists msg, processSips sipScenarios analytics = Throw msg.
Proof.
  induction 1 as [scenario rest [msg Hm] | scenario rest _ IH];
    intros analytics; cbn [processSips].
  - unfold sip_outcome in Hm. rewrite Hm. exists msg. reflexivity.
  - destruct (calculateSIP _ _ _) as [r | msg];
      [apply IH | exists msg; reflexivity].
Qed.

(** X22.  processAnalyticsData is all or nothing.  When the metrics of every
    portfolio and the calculateSIP result of every scenario can be computed,
    it returns an object holding one entry for each portfolio and one for
    each scenario, in order, each with the name of its input and with its
    metrics or result, a summary whose two counts are the lengths of the two
    inputs, and from which calculateAggregateStats counts as many
    investments as the two counts together.  When one portfolio or one
    scenario makes its computation throw, the whole call throws and no
    analytics are returned. *)
Theorem processAnalyticsData_all_or_nothing
  (portfolios : list (option string * Portfolio)) (sipScenarios : list Scenario) :
  (Forall (fun p => exists m, calculatePortfolioMetrics (snd p) = Return m)
     portfolios ->
   Forall (fun s => exists r, sip_outcome s = Return r) sipScenarios ->
   exists analytics sm,
     processAnalyticsData portfolios sipScenarios = Return analytics /\
     pa_summary analytics = Some sm /\
     portfolioCount sm = List.length portfolios /\
     sipCount sm = List.length sipScenarios /\
     Forall2 (fun p e => pe_name e = fst p /\
                         calculatePortfolioMetrics (snd p) = Return (pe_metrics e))
       portfolios (pa_portfolios analytics) /\
     Forall2 (fun s e => se_name e = sc_name s /\
                         sip_outcome s = Return (se_result e))
       sipScenarios (pa_sips analytics) /\
     totalInvestments (calculateAggregateStats (analytics_of analytics))
     = (portfolioCount sm + sipCount sm)%nat) /\
  (Exists (fun p => exists msg, calculatePortfolioMetrics (snd p) = Throw msg)
     portfolios \/
   Exists (fun s => exists msg, sip_outcome s = Throw msg) sipScenarios ->
   exists msg, processAnalyticsData portfolios sipScenarios = Throw msg).
Proof.
  split.
  - intros Hp Hs. unfold processAnalyticsData. cbv zeta.
    match goal with
    | |- context [processPortfolios portfolios ?a] =>
        destruct (processPortfolios_runs portfolios Hp a)
          as [a1 [ps [E1 [E2 [E3 E4]]]]]
    end.
    cbn [pa_portfolios pa_sips app] in E2, E3. rewrite E1.
    destruct (processSips_runs sipScenarios Hs a1) as [a2 [ss [F1 [F2 [F3 F4]]]]].
    rewrite E2 in F2. rewrite E3 in F3. cbn [app] in F3. rewrite F1.
    eexists. eexists. split; [reflexivity |].
    cbn [pa_summary pa_portfolios pa_sips portfolioCount sipCount].
    split; [reflexivity |]. split; [reflexivity |]. split; [reflexivity |].
    rewrite F2, F3. split; [exact E4 |]. split; [exact F4 |].
    unfold calculateAggregateStats, analytics_of. cbv zeta.
    cbn [an_portfolios an_sips pa_portfolios pa_sips portfolioCount sipCount
           totalInvestments].
    rewrite (Forall2_length E4), (Forall2_length F4).
    destruct (map _ ps ++ map _ ss); reflexivity.
  - intros [Hp | Hs]; unfold processAnalyticsData; cbv zeta.
    + match goal with
      | |- context [processPortfolios portfolios ?a] =>
          destruct (processPortfolios_throws portfolios Hp a) as [msg E]
      end.
      rewrite E. exists msg. reflexivity.
    + destruct (processPortfolios _ _) as [a1 | msg]; [| exists msg; reflexivity].
      destruct (processSips_throws sipScenarios Hs a1) as [msg E].
      rewrite E. exists msg. reflexivity.
Qed.

End Calculator.

(** ** Closed instances

    The instances below run the calculator at whole numbers of months,
    where Math.pow never reaches [pow_frac]; they hold for every choice of
    it. *)

Local Open Scope num_scope.


(** C3 as stated fails: a period of zero is not negative, the contribution
    and the rate are positive, and calculateSIP(1000, 0, 12) throws. *)
Lemma calculateSIP_rejects_zero_years :
  (forall pf,
      calculateSIP pf 1000 0 12 = Throw "Years must be a positive number") /\
  ~ ((1000 <= 0)%Q \/ (0 < 0)%Q \/ (12 < 0)%Q).
Proof.
  split; [reflexivity |].
  intros [H | [H | H]]; apply Qle_bool_iff in H || apply Qlt_not_le in H;
    try discriminate H; apply H; apply Qle_bool_iff; reflexivity.
Qed.

Lemma calculateSIP_validation_witness :
  positive_num 1000 /\ positive_num 1 /\ positive_num 12 /\
  forall pf, exists res,
    calculateSIP pf 1000 1 12 = Return res /\
    years res = 1 /\
    monthlyAmount res = round pf 1000 2 /\
    annualReturns res = round pf 12 2.
Proof.
  split; [reflexivity | split; [reflexivity | split; [reflexivity |]]].
  intros pf.
  exact (proj1 (proj2 (proj2 (proj2 (calculateSIP_validation pf 1000 1 12))))
           eq_refl eq_refl eq_refl).
Defined.






(** C8 as stated fails: 100 a month against a lump sum of 1143.69, over one
    year at 12 %, both mature at 1280.93, and the winner is 'Lump Sum'. *)
Lemma compareSIPvsLumpSum_tie_not_SIP :
  (forall pf, exists c,
      compareSIPvsLumpSum pf 100 1143.69 1 12 = Return c /\
      sipMaturity (comparison c) =~= 1280.93 /\
      lumpSumMaturity (comparison c) =~= 1280.93 /\
      winner (comparison c) = "Lump Sum"%string) /\
  "Lump Sum"%string <> "SIP"%string.
Proof.
  split; [| discriminate].
  intros pf. eexists. split; [vm_compute; reflexivity |].
  repeat split; vm_compute; reflexivity.
Qed.

Lemma compareSIPvsLumpSum_tie_witness :
  (0 < 100)%Q /\ (0 < 1143.69)%Q /\
  forall pf, exists c,
    compareSIPvsLumpSum pf 100 1143.69 1 12 = Return c /\
    sipMaturity (comparison c) =~= lumpSumMaturity (comparison c) /\
    winner (comparison c) = "Lump Sum"%string.
Proof.
  split; [reflexivity | split; [reflexivity |]].
  intros pf.
  destruct (compareSIPvsLumpSum pf 100 1143.69 1 12) as [c | msg] eqn:E;
    [| vm_compute in E; discriminate E].
  exists c. split; [reflexivity |].
  assert (T : sipMaturity (comparison c) =~= lumpSumMaturity (comparison c)).
  { pose proof E as E'. vm_compute in E'. apply Return_inj in E'.
    rewrite <- E'. vm_compute. reflexivity. }
  split; [exact T |].
  exact (proj1 (compareSIPvsLumpSum_tie pf 100 1143.69 1 12 c E) T).
Defined.


(** ** Closed instances of the further properties *)

Ltac le_Q := apply Qle_bool_iff; reflexivity.


Lemma calculateYearlyGrowth_last_row_witness :
  (0 < 5000)%Q /\ (0 < 10)%Z /\ (0 < 12)%Q /\
  forall pf, exists res rows row,
    calculateSIP pf (Fin 5000) (Fin (inject_Z 10)) (Fin 12) = Return res /\
    (forall fuel, (Z.to_nat 10 < fuel)%nat ->
       calculateYearlyGrowth pf fuel (Fin 5000) (Fin (inject_Z 10)) (Fin 12)
       = Some (rows ++ [row])) /\
    y_year row =~= Fin (inject_Z 10) /\
    y_totalInvested row = totalInvested res /\
    y_currentValue row = maturityValue res /\
    y_returns row = returns res /\
    y_returnPercentage row = returnPercentage res.
Proof.
  split; [reflexivity | split; [reflexivity | split; [reflexivity |]]].
  intros pf.
  exact (calculateYearlyGrowth_last_row pf 5000 12 10%Z eq_refl eq_refl eq_refl).
Defined.

Lemma calculateYearlyGrowth_guarded_percentage_witness :
  (0 <= 0)%Q /\
  forall pf, exists rows : list YearRow,
    (forall fuel, (Z.to_nat (Qfloor 3) < fuel)%nat ->
       calculateYearlyGrowth pf fuel (Fin 0) (Fin 3) (Fin 12) = Some rows) /\
    Forall (fun row => y_returnPercentage row =~= 0) rows.
Proof.
  split; [le_Q |].
  intros pf.
  refine (calculateYearlyGrowth_guarded_percentage pf 0 3 (Fin 12) _). le_Q.
Defined.

Lemma calculateSIPProjections_ends_at_calculateSIP_witness :
  (0 < 5000)%Q /\ (0 < 10)%Q /\ (10 * 12 == inject_Z 120)%Q /\ (0 < 12)%Q /\
  (0 < 6)%Q /\
  forall pf, exists res p,
    calculateSIP pf (Fin 5000) (Fin 10) (Fin 12) = Return res /\
    (forall fuel, (Z.to_nat (Qfloor (10 * 12 / 6)) < fuel)%nat ->
       calculateSIPProjections pf fuel (Fin 5000) (Fin 10) (Fin 12) (Some (Fin 6))
       = Some p) /\
    last (p_invested p) NaN = totalInvested res /\
    last (p_maturity p) NaN = maturityValue res /\
    last (p_returns p) NaN = returns res.
Proof.
  split; [reflexivity | split; [reflexivity | split; [reflexivity |
    split; [reflexivity | split; [reflexivity |]]]]].
  intros pf.
  exact (calculateSIPProjections_ends_at_calculateSIP pf 5000 10 12 6 120%Z
           eq_refl eq_refl eq_refl eq_refl eq_refl).
Defined.

Lemma calculatePortfolioRisk_in_scale_witness :
  let stocks := {| a_amount := None; a_returns := None;
                   a_allocation := Some (Fin 60) |} in
  let bonds := {| a_amount := Some (Fin 1000); a_returns := None;
                  a_allocation := Some (Fin 40) |} in
  let portfolio := {| assets := Some [("stocks"%string, stocks); ("bonds"%string, bonds)];
                      pf_timeHorizon := None; targetAmount := None |} in
  Forall (fun entry => own_name (fst entry))
    [("stocks"%string, stocks); ("bonds"%string, bonds)] /\
  Forall (fun entry => share_ok (snd entry))
    [("stocks"%string, stocks); ("bonds"%string, bonds)] /\
  forall pf,
    valid (validatePortfolioAllocation pf portfolio) = true /\
    exists s, calculatePortfolioRisk pf portfolio = Fin s /\ (1 <= s)%Q /\ (s <= 8)%Q.
Proof.
  intros stocks bonds portfolio.
  assert (H : Forall (fun entry => share_ok (snd entry))
                [("stocks"%string, stocks); ("bonds"%string, bonds)]).
  { constructor; [| constructor; [| constructor]];
      right; eexists; (split; [reflexivity | le_Q]). }
  assert (Ho : Forall (fun entry => own_name (fst entry))
                 [("stocks"%string, stocks); ("bonds"%string, bonds)]).
  { constructor; [| constructor; [| constructor]]; cbn [fst];
      intros Hin; repeat (destruct Hin as [Hin | Hin]; [discriminate Hin |]);
      exact Hin. }
  split; [exact Ho | split; [exact H |]].
  intros pf. split; [reflexivity |].
  exact (calculatePortfolioRisk_in_scale pf portfolio _ eq_refl Ho H eq_refl).
Defined.

Lemma calculatePortfolioReturns_single_sip_witness :
  (0 < 5000)%Q /\ (0 < 10)%Q /\ (10 * 12 == inject_Z 120)%Q /\ (0 < 12 # 100)%Q /\
  forall pf, exists res v,
    calculateSIP pf (Fin 5000) (Fin 10) (Fin ((12 # 100) * 100)) = Return res /\
    calculatePortfolioReturns pf
      {| assets :=
           Some [("sip"%string,
                  {| a_amount := Some (Fin 5000);
                     a_returns := Some (Fin (12 # 100));
                     a_allocation := None |})];
         pf_timeHorizon := Some (Fin 10);
         targetAmount := None |}
    = Return v /\
    v =~= maturityValue res.
Proof.
  split; [reflexivity | split; [reflexivity | split; [reflexivity |
    split; [reflexivity |]]]].
  intros pf.
  exact (calculatePortfolioReturns_single_sip pf 5000 10 (12 # 100) 120%Z None None
           eq_refl eq_refl eq_refl eq_refl).
Defined.




Lemma calculateMultipleSIPs_default_name_witness :
  let first := {| sc_name := None; sc_amount := Some (Fin 5000);
                  sc_monthlyAmount := None; sc_period := Some (Fin 10);
                  sc_years := None; sc_returns := Some (Fin 12);
                  sc_expectedReturns := None |} in
  let second := {| sc_name := Some EmptyString; sc_amount := None;
                   sc_monthlyAmount := Some (Fin 2000); sc_period := None;
                   sc_years := Some (Fin 5); sc_returns := None;
                   sc_expectedReturns := Some (Fin 8) |} in
  unnamed second /\ ~ In 1%nat (map fst [(0%nat, first)]) /\
  forall pf, exists results nr,
    calculateMultipleSIPs pf [(0%nat, first); (1%nat, second)] = Return results /\
    nth_error results 1 = Some nr /\
    nr_name nr = "SIP 11"%string.
Proof.
  intros first second.
  assert (Hname : unnamed second) by (right; reflexivity).
  assert (Hnot : ~ In 1%nat (map fst [(0%nat, first)])).
  { intros [H | []]. discriminate H. }
  split; [exact Hname | split; [exact Hnot |]].
  intros pf.
  destruct (calculateMultipleSIPs pf [(0%nat, first); (1%nat, second)])
    as [results | msg] eqn:E; [| vm_compute in E; discriminate E].
  destruct (calculateMultipleSIPs_default_name pf [(0%nat, first)] [] 1%nat second
              results E Hname Hnot) as [nr [E1 E2]].
  exists results, nr. split; [reflexivity | split; [exact E1 | exact E2]].
Defined.


Lemma clamp_within_bounds_witness :
  (0 <= 10)%Q /\ (10 < 15)%Q /\ clamp (Fin 15) (Fin 0) (Fin 10) = Fin 10.
Proof.
  assert (H : (0 <= 10)%Q) by le_Q.
  split; [exact H | split; [reflexivity |]].
  destruct (proj1 clamp_within_bounds 15 0 10 H) as [c [E [_ [_ [_ [_ Hhi]]]]]].
  rewrite E. f_equal. apply Hhi. reflexivity.
Defined.

Lemma calculatePortfolioReturns_throws_through_sip_witness :
  (Fin (-5) <? 0) = true /\ (Fin 1000 >? 0) = true /\
  Num.truthy (Fin (12 # 100)) = true /\
  forall pf,
    calculatePortfolioReturns pf
      {| assets :=
           Some [("stocks"%string,
                  {| a_amount := Some (Fin 500); a_returns := Some (Fin 10);
                     a_allocation := None |});
                 ("sip"%string,
                  {| a_amount := Some (Fin 1000); a_returns := Some (Fin (12 # 100));
                     a_allocation := None |})];
         pf_timeHorizon := Some (Fin (-5));
         targetAmount := None |}
    = Throw "Years must be a positive number".
Proof.
  split; [reflexivity | split; [reflexivity | split; [reflexivity |]]].
  intros pf.
  match goal with
  | |- calculatePortfolioReturns _ ?portfolio = _ =>
      refine (proj2 (calculatePortfolioReturns_throws_through_sip pf portfolio)
                _ {| a_amount := Some (Fin 1000); a_returns := Some (Fin (12 # 100));
                     a_allocation := None |}
                (Fin (-5)) (Fin 1000) (Fin (12 # 100))
                eq_refl eq_refl eq_refl _ eq_refl eq_refl eq_refl eq_refl)
  end.
  right. left. reflexivity.
Defined.

Lemma calculateGoalProgress_invariants_witness :
  (0 < 1000000)%Q /\
  forall pf, exists g rem prog,
    calculateGoalProgress pf
      {| assets :=
           Some [("sip"%string,
                  {| a_amount := Some (Fin 5000); a_returns := Some (Fin (12 # 100));
                     a_allocation := None |})];
         pf_timeHorizon := Some (Fin 10);
         targetAmount := Some (Fin 1000000) |}
    = Return (Some g) /\
    g_remaining g = Fin rem /\ g_progress g = Fin prog /\ (0 <= rem)%Q.
Proof.
  split; [reflexivity |].
  intros pf.
  set (portfolio :=
         {| assets :=
              Some [("sip"%string,
                     {| a_amount := Some (Fin 5000); a_returns := Some (Fin (12 # 100));
                        a_allocation := None |})];
            pf_timeHorizon := Some (Fin 10);
            targetAmount := Some (Fin 1000000) |}).
  destruct (calculatePortfolioReturns pf portfolio) as [[cv | | |] | msg] eqn:E;
    try (vm_compute in E; discriminate E).
  destruct (proj2 (calculateGoalProgress_invariants pf portfolio) 1000000 cv
              eq_refl eq_refl E) as [g [rem [prog [E1 [E2 [E3 [H _]]]]]]].
  exists g, rem, prog. split; [exact E1 | split; [exact E2 | split; [exact E3 | exact H]]].
Defined.


Lemma calculateMultipleSIPs_all_or_nothing_witness :
  let good := {| sc_name := Some "Plan A"%string; sc_amount := Some (Fin 5000);
                 sc_monthlyAmount := None; sc_period := Some (Fin 10);
                 sc_years := None; sc_returns := Some (Fin 12);
                 sc_expectedReturns := None |} in
  let other := {| sc_name := None; sc_amount := Some (Fin 0);
                  sc_monthlyAmount := Some (Fin 2000); sc_period := None;
                  sc_years := Some (Fin 5); sc_returns := None;
                  sc_expectedReturns := Some (Fin 8) |} in
  let bad := {| sc_name := None; sc_amount := Some (Fin 1000);
                sc_monthlyAmount := None; sc_period := None;
                sc_years := None; sc_returns := Some (Fin 12);
                sc_expectedReturns := None |} in
  or_opt (sc_amount other) (sc_monthlyAmount other) = Some (Fin 2000) /\
  forall pf,
    (Forall (fun e => scenario_valid pf (snd e)) [(0%nat, good); (1%nat, other)] /\
     exists results,
       calculateMultipleSIPs pf [(0%nat, good); (1%nat, other)] = Return results /\
       Forall2 (fun e nr => scenario_outcome pf (snd e) = Return (nr_result nr))
         [(0%nat, good); (1%nat, other)] results) /\
    scenario_outcome pf bad = Throw "Years must be a positive number" /\
    calculateMultipleSIPs pf ([(0%nat, good)] ++ (1%nat, bad) :: [(2%nat, other)])
    = Throw "Years must be a positive number".
Proof.
  intros good other bad. split; [reflexivity |]. intros pf.
  assert (Hgood : scenario_valid pf good).
  { unfold scenario_valid. destruct (scenario_outcome pf good) as [res | msg] eqn:E;
      [exists res; reflexivity | vm_compute in E; discriminate E]. }
  assert (Hother : scenario_valid pf other).
  { unfold scenario_valid. destruct (scenario_outcome pf other) as [res | msg] eqn:E;
      [exists res; reflexivity | vm_compute in E; discriminate E]. }
  assert (Hall : Forall (fun e => scenario_valid pf (snd e))
                   [(0%nat, good); (1%nat, other)]).
  { constructor; [exact Hgood | constructor; [exact Hother | constructor]]. }
  assert (Hbad : scenario_outcome pf bad = Throw "Years must be a positive number")
    by reflexivity.
  split; [split; [exact Hall |] | split; [exact Hbad |]].
  - exact (proj1 (calculateMultipleSIPs_all_or_nothing pf) _ Hall).
  - refine (proj2 (calculateMultipleSIPs_all_or_nothing pf) [(0%nat, good)]
              [(2%nat, other)] (1%nat, bad) _ _ Hbad).
    constructor; [exact Hgood | constructor].
Defined.


Lemma assessRiskProfile_score_range_witness :
  let answers := {| ans_timeHorizon := Some "long"%string;
                    ans_riskTolerance := Some "hold"%string;
                    ans_investmentGoal := Some "balanced-growth"%string;
                    ans_lossTolerance := None;
                    ans_knowledgeLevel := Some "no such level"%string;
                    ans_experience := Some "limited"%string;
                    ans_incomeStability := Some "stable"%string |} in
  plain_answers answers /\
  forall pf, exists s,
    rp_riskScore (assessRiskProfile pf answers "2024-01-01T00:00:00.000Z") = Fin s /\
    (16.3 <= s)%Q /\ (s <= 90.4)%Q /\
    rp_riskLevel (assessRiskProfile pf answers "2024-01-01T00:00:00.000Z")
    = "Moderate"%string.
Proof.
  intros answers.
  assert (Hp : plain_answers answers).
  { intros key Hin Hbad.
    repeat (destruct Hin as [Hin | Hin];
            [try discriminate Hin; injection Hin as <-;
             repeat (destruct Hbad as [Hbad | Hbad]; [discriminate Hbad |]);
             exact Hbad |]).
    exact Hin. }
  split; [exact Hp |].
  intros pf.
  destruct (assessRiskProfile_score_range pf answers "2024-01-01T00:00:00.000Z" Hp)
    as [s [E [L [U _]]]].
  exists s. split; [exact E | split; [exact L | split; [exact U | reflexivity]]].
Defined.


Lemma calculatePortfolioMetrics_outcome_witness :
  let portfolio :=
    {| assets := Some [("stocks"%string,
                        {| a_amount := None; a_returns := Some (Fin 10);
                           a_allocation := Some (Fin 100) |})];
       pf_timeHorizon := Some (Fin 10);
       targetAmount := Some (Fin 1000) |} in
  nothing_invested portfolio /\
  forall pf, exists m,
    calculatePortfolioMetrics pf portfolio = Return m /\
    m_riskScore m = calculatePortfolioRisk pf portfolio /\
    m_roi m =~= 0.
Proof.
  intros portfolio.
  assert (Hn : nothing_invested portfolio).
  { intros entries E. injection E as <-. constructor; [reflexivity | constructor]. }
  split; [exact Hn |].
  intros pf.
  destruct (calculatePortfolioReturns pf portfolio) as [v | msg] eqn:E;
    [| vm_compute in E; discriminate E].
  destruct (proj2 (calculatePortfolioMetrics_outcome pf portfolio) v E)
    as [m [E1 [_ [E2 [_ E3]]]]].
  exists m. split; [exact E1 | split; [exact E2 | exact (E3 Hn)]].
Defined.

Lemma processAnalyticsData_all_or_nothing_witness :
  let portfolio :=
    {| assets := Some [("stocks"%string,
                        {| a_amount := Some (Fin 1000); a_returns := Some (Fin 10);
                           a_allocation := Some (Fin 100) |})];
       pf_timeHorizon := Some (Fin 2);
       targetAmount := None |} in
  let scenario :=
    {| sc_name := Some "Plan A"%string; sc_amount := None;
       sc_monthlyAmount := Some (Fin 5000); sc_period := Some (Fin 10);
       sc_years := None; sc_returns := None;
       sc_expectedReturns := Some (Fin 12) |} in
  let broken :=
    {| sc_name := None; sc_amount := Some (Fin 5000);
       sc_monthlyAmount := None; sc_period := Some (Fin 10);
       sc_years := None; sc_returns := None;
       sc_expectedReturns := Some (Fin 12) |} in
  sc_monthlyAmount broken = None /\
  forall pf,
    (exists analytics sm,
        processAnalyticsData pf [(Some "Savings"%string, portfolio)] [scenario]
        = Return analytics /\
        pa_summary analytics = Some sm /\
        totalInvestments (calculateAggregateStats (analytics_of analytics))
        = (portfolioCount sm + sipCount sm)%nat) /\
    exists msg,
      processAnalyticsData pf [(Some "Savings"%string, portfolio)] [scenario; broken]
      = Throw msg.
Proof.
  intros portfolio scenario broken. split; [reflexivity |]. intros pf.
  assert (Hp : Forall (fun p => exists m, calculatePortfolioMetrics pf (snd p) = Return m)
                 [(Some "Savings"%string, portfolio)]).
  { constructor; [| constructor]. cbn [snd].
    destruct (calculatePortfolioMetrics pf portfolio) as [m | msg] eqn:E;
      [exists m; reflexivity | vm_compute in E; discriminate E]. }
  assert (Hs : Forall (fun s => exists r, sip_outcome pf s = Return r) [scenario]).
  { constructor; [| constructor].
    destruct (sip_outcome pf scenario) as [r | msg] eqn:E;
      [exists r; reflexivity | vm_compute in E; discriminate E]. }
  split.
  - destruct (proj1 (processAnalyticsData_all_or_nothing pf _ _) Hp Hs)
      as [analytics [sm [E1 [E2 [_ [_ [_ [_ E3]]]]]]]].
    exists analytics, sm. split; [exact E1 | split; [exact E2 | exact E3]].
  - apply (proj2 (processAnalyticsData_all_or_nothing pf _ _)).
    right. apply Exists_cons_tl. apply Exists_cons_hd.
    exists "Monthly amount must be a positive number"%string. reflexivity.
Defined.
